(** * Batch segmentation driver (Segmentator/batch_segmentator.py)

    A shallow embedding of [process_scene] and [main] of the batch driver,
    over an explicit model of the file system and of the external
    [segmentator] binary, together with the properties of the driver that
    its specification states.

    Conventions of the model.
    - A [pathlib.Path] is the list of its components; [p / n] appends one
      component, [.name] is the last one and [.parent] drops it.
    - The file system is an ordered association list from paths to nodes;
      the order of the list is the order in which the operating system
      enumerates a directory ([iterdir], [glob]).
    - A Python [float] is a signed dyadic number [m * 2^e] (or an infinity or
      a NaN), which is what a binary64 value is; [f"{x:.6f}"] is computed
      exactly on it.
    - Python exceptions are values of [exn]; code inside [try] lives in a
      state-and-exception monad over the [World].
    - The external binary is a parameter: any function from the invocation
      and the file system to a process result.
    - File-system operations fail for the reasons the model can see (a
      missing path, a file where a directory is needed, a directory where a
      file is needed, source and destination being the same file);
      links and I/O errors are not modelled, and each task's pipeline is
      one atomic step on the shared file system.
    - [process_scene], [run_sequential], [run_completed] and [main] are the
      code where [Path.exists()] returns; the [OSError]s that [exists()]
      re-raises at line 42, outside the [try], are added on top of them by
      [process_scene_or_raise], [run_sequential_or_abort] and
      [run_completed_catching]. *)

From Stdlib Require Import List String Ascii ZArith NArith Bool Lia Arith.
From Stdlib Require Import DecimalString Permutation.
Import ListNotations.

Set Warnings "-register-all".
Local Open Scope string_scope.
Local Open Scope list_scope.

(** Concatenation of strings, as an f-string builds them. *)
Infix "+++" := String.append (at level 60, right associativity).

(* ================================================================== *)
(** ** Strings *)

Module Str.

(** [needle in hay] on Python strings. *)
Fixpoint contains (needle hay : string) : bool :=
  String.prefix needle hay
  || match hay with
     | EmptyString => false
     | String _ rest => contains needle rest
     end.

(** [s.startswith(p)]. *)
Definition startswith (p s : string) : bool := String.prefix p s.

(** [fnmatch]-style matching as [pathlib] uses it for one path component:
    [*] matches any run of characters, [?] one character, every other
    character itself.  Bracket classes and the recursive [**] are not
    modelled (a scene name with such characters is outside the model). *)
Fixpoint fnmatch (pat : string) : string -> bool :=
  match pat with
  | EmptyString =>
      fun name => match name with EmptyString => true | _ => false end
  | String c pat' =>
      if Ascii.eqb c "*" then
        fix star (name : string) : bool :=
          fnmatch pat' name
          || match name with
             | EmptyString => false
             | String _ name' => star name'
             end
      else if Ascii.eqb c "?" then
        fun name =>
          match name with
          | EmptyString => false
          | String _ name' => fnmatch pat' name'
          end
      else
        fun name =>
          match name with
          | EmptyString => false
          | String d name' => Ascii.eqb c d && fnmatch pat' name'
          end
  end.

(** Decimal digits of a natural number, as [str(int)] prints them. *)
Definition digits (n : N) : string := NilEmpty.string_of_uint (N.to_uint n).

(** Left-pad with zeros to [width] characters. *)
Fixpoint zeros (k : nat) : string :=
  match k with O => "" | S k' => String "0" (zeros k') end.

Definition zfill (width : nat) (s : string) : string :=
  zeros (width - String.length s) +++ s.

End Str.

(* ================================================================== *)
(** ** Floats and fixed six-decimal formatting *)

Module PyFloat.

(** A binary floating-point value: [(-1)^neg * m * 2^e], an infinity or a
    NaN. *)
Inductive t :=
| Finite (neg : bool) (m : N) (e : Z)
| Infinite (neg : bool)
| NaN.

(** Nearest integer to [num / den], ties to even. *)
Definition round_half_even (num den : N) : N :=
  let q := (num / den)%N in
  let r := (num mod den)%N in
  if ((den <? 2 * r) || ((2 * r =? den) && N.odd q))%N then (q + 1)%N else q.

(** [|x| * 10^6] rounded to an integer. *)
Definition micro (m : N) (e : Z) : N :=
  if (0 <=? e)%Z then (m * 2 ^ Z.to_N e * 10 ^ 6)%N
  else round_half_even (m * 10 ^ 6) (2 ^ Z.to_N (- e)).

Definition sign (neg : bool) : string := if neg then "-" else "".

(** [f"{x:.6f}"]. *)
Definition format_6f (x : t) : string :=
  match x with
  | Finite neg m e =>
      let q := micro m e in
      sign neg +++ Str.digits (q / 10 ^ 6) +++ "."
               +++ Str.zfill 6 (Str.digits (q mod 10 ^ 6))
  | Infinite neg => sign neg +++ "inf"
  | NaN => "nan"
  end.

(** The binary64 values nearest to 0.01 and 0.005. *)
Definition f0_01 : t := Finite false 5764607523034235 (-59).
Definition f0_005 : t := Finite false 5764607523034235 (-60).
Definition f0_5 : t := Finite false 1 (-1).

End PyFloat.

(* ================================================================== *)
(** ** Paths *)

Definition path := list string.

Module Path.

(** [p / n]. *)
Definition join (p : path) (n : string) : path := p ++ [n].

(** [p.name]. *)
Definition name (p : path) : string := last p "".

(** [p.parent]. *)
Definition parent (p : path) : path := removelast p.

(** [str(p)]. *)
Definition str (p : path) : string :=
  match p with
  | [] => "."
  | _ :: _ => String.concat "/" p
  end.

Fixpoint eqb (p q : path) : bool :=
  match p, q with
  | [], [] => true
  | a :: p', b :: q' => String.eqb a b && eqb p' q'
  | _, _ => false
  end.

(** [p] is an entry of the directory [d]. *)
Definition is_child (d p : path) : bool :=
  match p with
  | [] => false
  | _ :: _ => eqb (parent p) d
  end.

End Path.

Notation "p // n" := (Path.join p n) (at level 40, left associativity).

(* ================================================================== *)
(** ** JSON documents and the membership test *)

Inductive json :=
| JNull
| JBool (b : bool)
| JInt (z : Z)
| JFloat (x : PyFloat.t)
| JStr (s : string)
| JArr (items : list json)
| JObj (fields : list (string * json)).

(** Python exceptions, as far as the driver tells them apart: the
    [subprocess.CalledProcessError] of a non-zero exit status, and every other
    [Exception], of which only [str(e)] is ever used. *)
Inductive exn :=
| CalledProcessError (returncode : Z) (stderr : string)
| Exception (msg : string).

Definition json_is_str (key : string) (j : json) : bool :=
  match j with
  | JStr s => String.eqb key s
  | _ => false
  end.

(** [key in doc] for the value [json.load] returned: key membership for a
    dict, element membership for a list, substring test for a str, and a
    [TypeError] for the scalars. *)
Definition py_in (key : string) (doc : json) : exn + bool :=
  match doc with
  | JObj fields => inr (existsb (fun kv => String.eqb key (fst kv)) fields)
  | JArr items => inr (existsb (json_is_str key) items)
  | JStr s => inr (Str.contains key s)
  | JNull => inl (Exception "argument of type 'NoneType' is not iterable")
  | JBool _ => inl (Exception "argument of type 'bool' is not iterable")
  | JInt _ => inl (Exception "argument of type 'int' is not iterable")
  | JFloat _ => inl (Exception "argument of type 'float' is not iterable")
  end.

(** The specification's notion of a document's field: a key of a JSON
    object; a document that is not an object has no field. *)
Definition has_field (key : string) (doc : json) : bool :=
  match doc with
  | JObj fields => existsb (fun kv => String.eqb key (fst kv)) fields
  | _ => false
  end.

(* ================================================================== *)
(** ** The file system *)

(** What [open(p)] followed by [json.load] does on a regular file. *)
Inductive payload :=
| Unreadable (err : string)     (* [open] raises an [OSError] *)
| Malformed (err : string)      (* [json.load] raises: the text is not JSON *)
| Document (doc : json).        (* [json.load] returns [doc] *)

Inductive node :=
| Dir (mtime : Z)
| File (mtime : Z) (data : payload).

Definition FS := list (path * node).

Module Fs.

Fixpoint find (fs : FS) (p : path) : option node :=
  match fs with
  | [] => None
  | (q, n) :: fs' => if Path.eqb q p then Some n else find fs' p
  end.

(** The node at [p]; the empty path is the working directory. *)
Definition lookup (fs : FS) (p : path) : option node :=
  match p with
  | [] => Some (Dir 0)
  | _ :: _ => find fs p
  end.

(** [p.exists()], [p.is_dir()], [p.is_file()]. *)
Definition exists_ (fs : FS) (p : path) : bool :=
  match lookup fs p with Some _ => true | None => false end.

Definition is_dir (fs : FS) (p : path) : bool :=
  match lookup fs p with Some (Dir _) => true | _ => false end.

Definition is_file (fs : FS) (p : path) : bool :=
  match lookup fs p with Some (File _ _) => true | _ => false end.

(** Entries of the directory [d], in enumeration order. *)
Definition children (fs : FS) (d : path) : list path :=
  filter (Path.is_child d) (map fst fs).

(** [d.iterdir()]. *)
Definition iterdir (fs : FS) (d : path) : exn + list path :=
  match lookup fs d with
  | Some (Dir _) => inr (children fs d)
  | Some (File _ _) =>
      inl (Exception ("[Errno 20] Not a directory: '" +++ Path.str d +++ "'"))
  | None =>
      inl (Exception ("[Errno 2] No such file or directory: '"
                      +++ Path.str d +++ "'"))
  end.

(** [d.glob(pattern)] for a one-component pattern. *)
Definition glob (fs : FS) (d : path) (pattern : string) : list path :=
  filter (fun c => Str.fnmatch pattern (Path.name c)) (children fs d).

(** [p.stat().st_mtime]. *)
Definition st_mtime (fs : FS) (p : path) : exn + Z :=
  match lookup fs p with
  | Some (Dir mt) => inr mt
  | Some (File mt _) => inr mt
  | None =>
      inl (Exception ("[Errno 2] No such file or directory: '"
                      +++ Path.str p +++ "'"))
  end.

(** [with open(p, 'r') as f: json.load(f)]. *)
Definition load_json (fs : FS) (p : path) : exn + json :=
  match lookup fs p with
  | Some (File _ (Document doc)) => inr doc
  | Some (File _ (Malformed err)) => inl (Exception err)
  | Some (File _ (Unreadable err)) => inl (Exception err)
  | Some (Dir _) =>
      inl (Exception ("[Errno 21] Is a directory: '" +++ Path.str p +++ "'"))
  | None =>
      inl (Exception ("[Errno 2] No such file or directory: '"
                      +++ Path.str p +++ "'"))
  end.

(** Replace the node at [p], or add it as the last entry. *)
Fixpoint write (fs : FS) (p : path) (n : node) : FS :=
  match fs with
  | [] => [(p, n)]
  | (q, m) :: fs' =>
      if Path.eqb q p then (q, n) :: fs' else (q, m) :: write fs' p n
  end.

(** [d.mkdir(parents=True, exist_ok=True)]: walks the prefixes of [d] from
    the outermost, creating those that are missing with timestamp [now]. *)
Fixpoint mkdir_from (now : Z) (fs : FS) (done : path) (todo : list string)
  : exn + FS :=
  match todo with
  | [] => inr fs
  | c :: rest =>
      let p := done // c in
      match find fs p with
      | Some (Dir _) => mkdir_from now fs p rest
      | Some (File _ _) =>
          inl (Exception
                 (match rest with
                  | [] => "[Errno 17] File exists: '"
                  | _ :: _ => "[Errno 20] Not a directory: '"
                  end +++ Path.str (p ++ rest) +++ "'"))
      | None => mkdir_from now (fs ++ [(p, Dir now)]) p rest
      end
  end.

Definition mkdir_p (now : Z) (fs : FS) (d : path) : exn + FS :=
  mkdir_from now fs [] d.

(** [shutil.copy2(src, dst)]: a directory destination receives the file
    under the source's name; contents and modification time are copied. *)
Definition copy2 (fs : FS) (src dst : path) : exn + FS :=
  let target := if is_dir fs dst then dst // Path.name src else dst in
  if Path.eqb src target then
    inl (Exception ("'" +++ Path.str src +++ "' and '" +++ Path.str target
                        +++ "' are the same file"))
  else
    match lookup fs src with
    | None =>
        inl (Exception ("[Errno 2] No such file or directory: '"
                        +++ Path.str src +++ "'"))
    | Some (Dir _) =>
        inl (Exception ("[Errno 21] Is a directory: '"
                        +++ Path.str src +++ "'"))
    | Some (File _ (Unreadable err)) => inl (Exception err)
    | Some (File mt data) =>
        if is_dir fs target then
          inl (Exception ("[Errno 21] Is a directory: '"
                          +++ Path.str target +++ "'"))
        else if is_dir fs (Path.parent target) then
          inr (write fs target (File mt data))
        else
          inl (Exception ("[Errno 2] No such file or directory: '"
                          +++ Path.str target +++ "'"))
    end.

End Fs.

(* ================================================================== *)
(** ** The external binary and the world *)

(** One call of [subprocess.run]: the command line
    [[segmentator_bin, ply_file, kthresh, seg_min_verts]] (the values whose
    [str] the code passes) and the working directory. *)
Record call := Call {
  c_bin : path;
  c_ply : path;
  c_kthresh : PyFloat.t;
  c_min_verts : Z;
  c_cwd : path
}.

(** What [subprocess.run(..., check=True)] observes: the process could not be
    started (an [OSError]), or it ran, left the file system in some state and
    exited with a status and an error stream.  The streams are taken to be
    decodable text. *)
Inductive proc_result :=
| LaunchFailed (err : string)
| Exited (returncode : Z) (stderr : string) (fs' : FS).

Record World := mkWorld {
  fs : FS;
  calls : list call       (* every [subprocess.run] so far, oldest first *)
}.

(** ** The state-and-exception monad of a [try] body *)

Definition M (A : Type) : Type := World -> (exn + A) * World.

Definition ret {A} (a : A) : M A := fun w => (inr a, w).

Definition raise {A} (e : exn) : M A := fun w => (inl e, w).

Definition bind {A B} (m : M A) (k : A -> M B) : M B :=
  fun w =>
    match m w with
    | (inl e, w') => (inl e, w')
    | (inr a, w') => k a w'
    end.

Notation "x <- m ;; k" := (bind m (fun x => k))
  (at level 61, m at next level, right associativity).
Notation "m ;;; k" := (bind m (fun _ => k))
  (at level 61, right associativity).

(** A read of the file system that may raise. *)
Definition reading {A} (f : FS -> exn + A) : M A :=
  fun w => (f (fs w), w).

(** A write to the file system that may raise (and then changes nothing). *)
Definition writing (f : FS -> exn + FS) : M unit :=
  fun w =>
    match f (fs w) with
    | inl e => (inl e, w)
    | inr fs' => (inr tt, mkWorld fs' (calls w))
    end.

(** The outcome a task returns: [(success, scene_name, error_msg)]. *)
Definition result : Type := bool * string * option string.

Definition r_success (r : result) : bool := fst (fst r).
Definition r_scene (r : result) : string := snd (fst r).
Definition r_detail (r : result) : option string := snd r.

(** [max(candidates, key=lambda p: p.stat().st_mtime)]: the keys are taken in
    order and the first candidate with the greatest key is kept. *)
Fixpoint max_scan (fs : FS) (best : path) (best_key : Z) (rest : list path)
  : exn + path :=
  match rest with
  | [] => inr best
  | c :: rest' =>
      match Fs.st_mtime fs c with
      | inl e => inl e
      | inr k =>
          if (best_key <? k)%Z then max_scan fs c k rest'
          else max_scan fs best best_key rest'
      end
  end.

Definition max_by_mtime (candidates : list path) (fs : FS) : exn + path :=
  match candidates with
  | [] => inl (Exception "max() arg is an empty sequence")
  | c :: rest =>
      match Fs.st_mtime fs c with
      | inl e => inl e
      | inr k => max_scan fs c k rest
      end
  end.

(** The fixed name under which a scene's segmentation is delivered. *)
Definition output_filename (scene_name : string) : string :=
  scene_name +++ "_vh_clean_2.0.010000.segs.json".

Section Driver.

(** The external binary, the directory of the script, and the time stamp
    given to directories the driver creates. *)
Variable segmentator : call -> FS -> proc_result.
Variable script_dir : path.
Variable now : Z.

(** [subprocess.run(cmd, capture_output=True, text=True, check=True,
    cwd=...)]. *)
Definition subprocess_run (c : call) : M unit :=
  fun w =>
    let logged := calls w ++ [c] in
    match segmentator c (fs w) with
    | LaunchFailed err => (inl (Exception err), mkWorld (fs w) logged)
    | Exited code stderr fs' =>
        if (code =? 0)%Z then (inr tt, mkWorld fs' logged)
        else (inl (CalledProcessError code stderr), mkWorld fs' logged)
    end.

(** Lines 73-79: the candidate the driver reads, among those the glob
    returned. *)
Definition select_candidate (kthresh : PyFloat.t) (candidates : list path)
           (fs : FS) : exn + path :=
  let kthresh_str := PyFloat.format_6f kthresh in
  let matching :=
    filter (fun c => Str.contains kthresh_str (Path.name c)) candidates in
  match matching with
  | m :: _ => inr m
  | [] => max_by_mtime candidates fs
  end.

(** The body of the [try] of [process_scene] (lines 46-103). *)
Definition process_scene_try (scene_name : string)
           (ply_file output_dir segmentator_bin : path)
           (kthresh : PyFloat.t) (seg_min_verts : Z) : M result :=
  subprocess_run (Call segmentator_bin ply_file kthresh seg_min_verts
                       (Path.parent ply_file)) ;;;
  let pattern := scene_name +++ "_vh_clean_2.*.segs.json" in
  candidates <- reading (fun fs => inr (Fs.glob fs (Path.parent ply_file)
                                                pattern)) ;;
  match candidates with
  | [] =>
      ret (false, scene_name,
           Some ("No segs.json file generated for " +++ scene_name))
  | _ :: _ =>
      seg_file <- reading (select_candidate kthresh candidates) ;;
      seg_data <- reading (fun fs => Fs.load_json fs seg_file) ;;
      present <- reading (fun _ => py_in "segIndices" seg_data) ;;
      if negb present then
        ret (false, scene_name,
             Some "Invalid segs.json format: missing segIndices")
      else
        let output_file := output_dir // output_filename scene_name in
        writing (fun fs => Fs.mkdir_p now fs (Path.parent output_file)) ;;;
        writing (fun fs => Fs.copy2 fs seg_file output_file) ;;;
        ret (true, scene_name, None)
  end.

(** [process_scene]: the existence check, the [try] body and its two
    handlers. *)
Definition process_scene (scene_dir output_dir segmentator_bin : path)
           (kthresh : PyFloat.t) (seg_min_verts : Z) (w : World)
  : result * World :=
  let scene_name := Path.name scene_dir in
  let ply_file := scene_dir // (scene_name +++ "_vh_clean_2.ply") in
  if negb (Fs.exists_ (fs w) ply_file) then
    ((false, scene_name,
      Some ("PLY file not found: " +++ Path.str ply_file)), w)
  else
    match process_scene_try scene_name ply_file output_dir segmentator_bin
                            kthresh seg_min_verts w with
    | (inr r, w') => (r, w')
    | (inl (CalledProcessError _ stderr), w') =>
        ((false, scene_name, Some ("Segmentator error: " +++ stderr)), w')
    | (inl (Exception msg), w') =>
        ((false, scene_name, Some ("Unexpected error: " +++ msg)), w')
    end.

(** Lines 66-103 on their own: what the driver does with the file system
    [fs1] that a run with exit status 0 left: the value the [try] body
    returns or the exception it raises, and the file system afterwards. *)
Definition resolve_output (scene_dir output_dir : path)
           (kthresh : PyFloat.t) (fs1 : FS) : (exn + result) * FS :=
  let scene_name := Path.name scene_dir in
  let pattern := scene_name +++ "_vh_clean_2.*.segs.json" in
  let output_file := output_dir // output_filename scene_name in
  match Fs.glob fs1 scene_dir pattern with
  | [] =>
      (inr (false, scene_name,
            Some ("No segs.json file generated for " +++ scene_name)), fs1)
  | c :: cs =>
      match select_candidate kthresh (c :: cs) fs1 with
      | inl e => (inl e, fs1)
      | inr seg_file =>
          match Fs.load_json fs1 seg_file with
          | inl e => (inl e, fs1)
          | inr seg_data =>
              match py_in "segIndices" seg_data with
              | inl e => (inl e, fs1)
              | inr false =>
                  (inr (false, scene_name,
                        Some "Invalid segs.json format: missing segIndices"),
                   fs1)
              | inr true =>
                  match Fs.mkdir_p now fs1 output_dir with
                  | inl e => (inl e, fs1)
                  | inr fs2 =>
                      match Fs.copy2 fs2 seg_file output_file with
                      | inl e => (inl e, fs2)
                      | inr fs3 => (inr (true, scene_name, None), fs3)
                      end
                  end
              end
          end
      end
  end.

(** *** [main] *)

(** The parsed command line. [segmentator_path] is [None] when the option is
    absent or empty. *)
Record Args := mkArgs {
  input_dir : path;
  output_dir : path;
  segmentator_path : option path;
  kthresh : PyFloat.t;
  seg_min_verts : Z;
  num_workers : Z;
  skip_existing : bool
}.

(** [success_count], [fail_count] and [failed_scenes] of [main]. *)
Record Report := mkReport {
  success_count : nat;
  fail_count : nat;
  failed_scenes : list (string * option string)
}.

Definition empty_report : Report := mkReport 0 0 [].

(** How [main] ends: [sys.exit(code)], an exception nobody catches, or the
    summary. *)
Inductive main_result :=
| SysExit (code : Z)
| Uncaught (e : exn)
| Finished (r : Report).

(** Lines 268-272 (and 245-251): one returned triple is counted. *)
Definition record_result (r : result) (rep : Report) : Report :=
  let '(success, scene_name, error_msg) := r in
  if success then
    mkReport (success_count rep + 1) (fail_count rep) (failed_scenes rep)
  else
    mkReport (success_count rep) (fail_count rep + 1)
             (failed_scenes rep ++ [(scene_name, error_msg)]).

(** Lines 252-255: a future whose [result()] raises is counted as failed. *)
Definition record_exception (scene_dir : path) (msg : string) (rep : Report)
  : Report :=
  mkReport (success_count rep) (fail_count rep + 1)
           (failed_scenes rep ++ [(Path.name scene_dir, Some msg)]).

(** Lines 260-272: the sequential loop. *)
Fixpoint run_sequential (output_dir segmentator_bin : path)
         (kthresh : PyFloat.t) (seg_min_verts : Z)
         (scene_dirs : list path) (rep : Report) (w : World)
  : Report * World :=
  match scene_dirs with
  | [] => (rep, w)
  | scene_dir :: rest =>
      let (r, w') := process_scene scene_dir output_dir segmentator_bin
                                   kthresh seg_min_verts w in
      run_sequential output_dir segmentator_bin kthresh seg_min_verts
                     rest (record_result r rep) w'
  end.

(** The process pool, at the granularity of tasks: the submitted tasks
    complete in some order, each running [process_scene] on the world the
    tasks before it left; a worker may also die, in which case
    [future.result()] raises. *)
Record Pool := mkPool {
  completion : list path -> list path;
  completion_perm : forall l, Permutation (completion l) l;
  fault : path -> option string
}.

(** Lines 241-257: the loop over [as_completed]. *)
Fixpoint run_completed (pool : Pool) (output_dir segmentator_bin : path)
         (kthresh : PyFloat.t) (seg_min_verts : Z)
         (completed : list path) (rep : Report) (w : World)
  : Report * World :=
  match completed with
  | [] => (rep, w)
  | scene_dir :: rest =>
      match fault pool scene_dir with
      | Some msg =>
          run_completed pool output_dir segmentator_bin kthresh
                        seg_min_verts rest
                        (record_exception scene_dir msg rep) w
      | None =>
          let (r, w') := process_scene scene_dir output_dir segmentator_bin
                                       kthresh seg_min_verts w in
          run_completed pool output_dir segmentator_bin kthresh
                        seg_min_verts rest (record_result r rep) w'
      end
  end.

(** Lines 223-272. *)
Definition run_batch (pool : Pool) (args : Args) (segmentator_bin : path)
           (scene_dirs : list path) (w : World) : Report * World :=
  if (1 <? num_workers args)%Z then
    run_completed pool (output_dir args) segmentator_bin (kthresh args)
                  (seg_min_verts args) (completion pool scene_dirs)
                  empty_report w
  else
    run_sequential (output_dir args) segmentator_bin (kthresh args)
                   (seg_min_verts args) scene_dirs empty_report w.

(** Line 191: the scene directories of the input directory. *)
Definition discover (fs : FS) (input_dir : path) : exn + list path :=
  match Fs.iterdir fs input_dir with
  | inl e => inl e
  | inr entries =>
      inr (filter (fun d => Fs.is_dir fs d
                            && Str.startswith "scene" (Path.name d))
                  entries)
  end.

(** Lines 206-215: the scenes whose delivered file does not exist yet. *)
Definition remaining_scenes (fs : FS) (output_dir : path)
           (scene_dirs : list path) : list path :=
  filter (fun scene_dir =>
            negb (Fs.exists_ fs
                    (output_dir // output_filename (Path.name scene_dir))))
         scene_dirs.

(** Lines 170-175. *)
Definition resolve_binary (args : Args) : path :=
  match segmentator_path args with
  | Some p => p
  | None => script_dir // "segmentator"
  end.

(** Lines 162-216: the checks before the batch and the list of tasks; either
    the way [main] ends early, or the tasks to dispatch. *)
Definition prepare (args : Args) (w : World)
  : (main_result + list path) * World :=
  if negb (Fs.exists_ (fs w) (input_dir args)) then (inl (SysExit 1), w)
  else
    let segmentator_bin := resolve_binary args in
    if negb (Fs.exists_ (fs w) segmentator_bin) then (inl (SysExit 1), w)
    else if negb (Fs.is_file (fs w) segmentator_bin) then
      (inl (SysExit 1), w)
    else
      match Fs.mkdir_p now (fs w) (output_dir args) with
      | inl e => (inl (Uncaught e), w)
      | inr fs1 =>
          let w1 := mkWorld fs1 (calls w) in
          match discover fs1 (input_dir args) with
          | inl e => (inl (Uncaught e), w1)
          | inr [] => (inl (SysExit 1), w1)
          | inr (d :: ds) =>
              let scene_dirs := d :: ds in
              if skip_existing args then
                (inr (remaining_scenes fs1 (output_dir args) scene_dirs), w1)
              else (inr scene_dirs, w1)
          end
      end.

Definition main (pool : Pool) (args : Args) (w : World)
  : main_result * World :=
  match prepare args w with
  | (inl early, w1) => (early, w1)
  | (inr scene_dirs, w1) =>
      let (rep, w2) :=
        run_batch pool args (resolve_binary args) scene_dirs w1 in
      (Finished rep, w2)
  end.

(** *** The outcomes in the order the aggregation receives them *)

Fixpoint outcomes_sequential (output_dir segmentator_bin : path)
         (kthresh : PyFloat.t) (seg_min_verts : Z)
         (scene_dirs : list path) (w : World) : list result :=
  match scene_dirs with
  | [] => []
  | scene_dir :: rest =>
      let (r, w') := process_scene scene_dir output_dir segmentator_bin
                                   kthresh seg_min_verts w in
      r :: outcomes_sequential output_dir segmentator_bin kthresh
                               seg_min_verts rest w'
  end.

Fixpoint outcomes_completed (pool : Pool) (output_dir segmentator_bin : path)
         (kthresh : PyFloat.t) (seg_min_verts : Z)
         (completed : list path) (w : World) : list result :=
  match completed with
  | [] => []
  | scene_dir :: rest =>
      match fault pool scene_dir with
      | Some msg =>
          (false, Path.name scene_dir, Some msg)
            :: outcomes_completed pool output_dir segmentator_bin kthresh
                                  seg_min_verts rest w
      | None =>
          let (r, w') := process_scene scene_dir output_dir segmentator_bin
                                       kthresh seg_min_verts w in
          r :: outcomes_completed pool output_dir segmentator_bin kthresh
                                  seg_min_verts rest w'
      end
  end.

Definition outcomes_batch (pool : Pool) (args : Args)
           (segmentator_bin : path) (scene_dirs : list path) (w : World)
  : list result :=
  if (1 <? num_workers args)%Z then
    outcomes_completed pool (output_dir args) segmentator_bin (kthresh args)
                       (seg_min_verts args) (completion pool scene_dirs) w
  else
    outcomes_sequential (output_dir args) segmentator_bin (kthresh args)
                        (seg_min_verts args) scene_dirs w.

(** The aggregation of a sequence of outcomes. *)
Definition tally (outcomes : list result) (rep : Report) : Report :=
  fold_left (fun acc r => record_result r acc) outcomes rep.

End Driver.

(** The outcomes that count as failures, and the line each adds to
    [failed_scenes]. *)
Definition failed (r : result) : bool := negb (r_success r).

Definition ledger_line (r : result) : string * option string :=
  (r_scene r, r_detail r).

(** [args] with another number of workers. *)
Definition with_workers (n : Z) (args : Args) : Args :=
  mkArgs (input_dir args) (output_dir args) (segmentator_path args)
         (kthresh args) (seg_min_verts args) n (skip_existing args).

Section Independence.

Variable segmentator : call -> FS -> proc_result.
Variable now : Z.
Variables output_dir segmentator_bin : path.
Variable kthresh : PyFloat.t.
Variable seg_min_verts : Z.

(** The outcome of the task of [scene_dir] in the world [w] and the world it
    leaves. *)
Definition task_outcome (scene_dir : path) (w : World) : result :=
  fst (process_scene segmentator now scene_dir output_dir segmentator_bin
                     kthresh seg_min_verts w).

Definition task_effect (w : World) (scene_dir : path) : World :=
  snd (process_scene segmentator now scene_dir output_dir segmentator_bin
                     kthresh seg_min_verts w).

(** The world after the tasks of [earlier] ran one after the other. *)
Definition after_tasks (earlier : list path) (w : World) : World :=
  fold_left task_effect earlier w.

(** Fixed external behaviour: the outcome of a task is the same whichever of
    the other tasks ran before it. *)
Definition order_independent (tasks : list path) (w : World) : Prop :=
  forall (d : path) (earlier : list path),
    In d tasks -> NoDup earlier -> incl earlier tasks -> ~ In d earlier ->
    task_outcome d (after_tasks earlier w) = task_outcome d w.

End Independence.


(** The five kinds of detail a failed task carries (lines 43, 70, 87, 106 and
    108). *)
Definition failure_detail (scene_dir : path) (msg : string) : Prop :=
  let scene_name := Path.name scene_dir in
  msg = "PLY file not found: "
          +++ Path.str (scene_dir // (scene_name +++ "_vh_clean_2.ply"))
  \/ (exists stderr, msg = "Segmentator error: " +++ stderr)
  \/ msg = "No segs.json file generated for " +++ scene_name
  \/ msg = "Invalid segs.json format: missing segIndices"
  \/ (exists err, msg = "Unexpected error: " +++ err).

(** The command line of the task of [scene_dir] (lines 48-61). *)
Definition call_of (scene_dir segmentator_bin : path) (kthresh : PyFloat.t)
           (seg_min_verts : Z) : call :=
  Call segmentator_bin
       (scene_dir // (Path.name scene_dir +++ "_vh_clean_2.ply"))
       kthresh seg_min_verts scene_dir.

(* ================================================================== *)
(** ** When [exists()] raises

    [ply_file.exists()] (line 42) stands before the [try].  pathlib's
    [exists()] answers [False] for the errors of a missing path (ENOENT,
    ENOTDIR, EBADF, ELOOP) and re-raises every other [OSError] of [os.stat]:
    EACCES for a scene directory that may not be searched, ENAMETOOLONG for
    a name that is too long.  [stat_error p] is the text of such an error
    for the path [p], when there is one.  Inside the [try] every exception
    is caught, so only this one call can make [process_scene] raise. *)

Definition stat_errors : Type := path -> option string.

(** [p.exists()], with the errors it re-raises: [inl msg] is an [OSError]
    whose [str] is [msg]. *)
Definition path_exists (stat_error : stat_errors) (fs : FS) (p : path)
  : string + bool :=
  match stat_error p with
  | Some msg => inl msg
  | None => inr (Fs.exists_ fs p)
  end.

(** [ran] is [l] with some elements left out, in the same order. *)
Inductive subsequence {A : Type} : list A -> list A -> Prop :=
| subsequence_nil : subsequence [] []
| subsequence_keep (x : A) (ran l : list A) :
    subsequence ran l -> subsequence (x :: ran) (x :: l)
| subsequence_skip (x : A) (ran l : list A) :
    subsequence ran l -> subsequence ran (x :: l).

Section RaisingDriver.

Variable segmentator : call -> FS -> proc_result.
Variable now : Z.
Variable stat_error : stat_errors.

(** [process_scene] with the exception of line 42: when [exists()] raises,
    the function raises and has done nothing; otherwise it is
    [process_scene]. *)
Definition process_scene_or_raise
           (scene_dir output_dir segmentator_bin : path)
           (kthresh : PyFloat.t) (seg_min_verts : Z) (w : World)
  : (string + result) * World :=
  let scene_name := Path.name scene_dir in
  let ply_file := scene_dir // (scene_name +++ "_vh_clean_2.ply") in
  match path_exists stat_error (fs w) ply_file with
  | inl msg => (inl msg, w)
  | inr _ =>
      let (r, w') := process_scene segmentator now scene_dir output_dir
                                   segmentator_bin kthresh seg_min_verts w in
      (inr r, w')
  end.

(** Lines 260-272: the sequential loop has no handler, so an exception of
    [process_scene] ends the loop, and [main], without a report. *)
Fixpoint run_sequential_or_abort (output_dir segmentator_bin : path)
         (kthresh : PyFloat.t) (seg_min_verts : Z)
         (scene_dirs : list path) (rep : Report) (w : World)
  : (string + Report) * World :=
  match scene_dirs with
  | [] => (inr rep, w)
  | scene_dir :: rest =>
      match process_scene_or_raise scene_dir output_dir segmentator_bin
                                   kthresh seg_min_verts w with
      | (inl msg, w') => (inl msg, w')
      | (inr r, w') =>
          run_sequential_or_abort output_dir segmentator_bin kthresh
                                  seg_min_verts rest (record_result r rep) w'
      end
  end.

(** Lines 241-257: the loop over [as_completed] catches what
    [future.result()] raises (lines 252-255), be it a dead worker or an
    exception of [process_scene]. *)
Fixpoint run_completed_catching (pool : Pool)
         (output_dir segmentator_bin : path)
         (kthresh : PyFloat.t) (seg_min_verts : Z)
         (completed : list path) (rep : Report) (w : World)
  : Report * World :=
  match completed with
  | [] => (rep, w)
  | scene_dir :: rest =>
      match fault pool scene_dir with
      | Some msg =>
          run_completed_catching pool output_dir segmentator_bin kthresh
                                 seg_min_verts rest
                                 (record_exception scene_dir msg rep) w
      | None =>
          match process_scene_or_raise scene_dir output_dir segmentator_bin
                                       kthresh seg_min_verts w with
          | (inl msg, w') =>
              run_completed_catching pool output_dir segmentator_bin kthresh
                                     seg_min_verts rest
                                     (record_exception scene_dir msg rep) w'
          | (inr r, w') =>
              run_completed_catching pool output_dir segmentator_bin kthresh
                                     seg_min_verts rest
                                     (record_result r rep) w'
          end
      end
  end.

(** Lines 223-272: [inl msg] when the batch ends with an exception nobody
    catches, [inr report] when it reaches the summary. *)
Definition run_batch_or_abort (pool : Pool) (args : Args)
           (segmentator_bin : path) (scene_dirs : list path) (w : World)
  : (string + Report) * World :=
  if (1 <? num_workers args)%Z then
    let (rep, w') :=
      run_completed_catching pool (output_dir args) segmentator_bin
                             (kthresh args) (seg_min_verts args)
                             (completion pool scene_dirs) empty_report w in
    (inr rep, w')
  else
    run_sequential_or_abort (output_dir args) segmentator_bin (kthresh args)
                            (seg_min_verts args) scene_dirs empty_report w.

(** The outcomes the aggregation has received when the batch ends: on the
    sequential path those of the tasks before the exception, on the pool
    path one for every task. *)
Fixpoint outcomes_before_abort (output_dir segmentator_bin : path)
         (kthresh : PyFloat.t) (seg_min_verts : Z)
         (scene_dirs : list path) (w : World) : list result :=
  match scene_dirs with
  | [] => []
  | scene_dir :: rest =>
      match process_scene_or_raise scene_dir output_dir segmentator_bin
                                   kthresh seg_min_verts w with
      | (inl _, _) => []
      | (inr r, w') =>
          r :: outcomes_before_abort output_dir segmentator_bin kthresh
                                     seg_min_verts rest w'
      end
  end.

Fixpoint outcomes_caught (pool : Pool) (output_dir segmentator_bin : path)
         (kthresh : PyFloat.t) (seg_min_verts : Z)
         (completed : list path) (w : World) : list result :=
  match completed with
  | [] => []
  | scene_dir :: rest =>
      match fault pool scene_dir with
      | Some msg =>
          (false, Path.name scene_dir, Some msg)
            :: outcomes_caught pool output_dir segmentator_bin kthresh
                               seg_min_verts rest w
      | None =>
          match process_scene_or_raise scene_dir output_dir segmentator_bin
                                       kthresh seg_min_verts w with
          | (inl msg, w') =>
              (false, Path.name scene_dir, Some msg)
                :: outcomes_caught pool output_dir segmentator_bin kthresh
                                   seg_min_verts rest w'
          | (inr r, w') =>
              r :: outcomes_caught pool output_dir segmentator_bin kthresh
                                   seg_min_verts rest w'
          end
      end
  end.

Definition outcomes_received (pool : Pool) (args : Args)
           (segmentator_bin : path) (scene_dirs : list path) (w : World)
  : list result :=
  if (1 <? num_workers args)%Z then
    outcomes_caught pool (output_dir args) segmentator_bin (kthresh args)
                    (seg_min_verts args) (completion pool scene_dirs) w
  else
    outcomes_before_abort (output_dir args) segmentator_bin (kthresh args)
                          (seg_min_verts args) scene_dirs w.

End RaisingDriver.

(* ================================================================== *)
(** ** Concrete binaries and worlds *)

Module Examples.

Definition seg_doc : json :=
  JObj [("segIndices", JArr [JInt 0; JInt 0; JInt 1])].

(** The name the binary gives its output for a scene and a threshold. *)
Definition produced_name (scene_name : string) (kthresh : PyFloat.t)
  : string :=
  scene_name +++ "_vh_clean_2." +++ PyFloat.format_6f kthresh
             +++ ".segs.json".

(** A binary that behaves as documented: it writes the segmentation beside
    its input and exits with status 0. *)
Definition segmentator_ok (c : call) (fs : FS) : proc_result :=
  Exited 0 ""
         (Fs.write fs
                   (c_cwd c // produced_name (Path.name (c_cwd c))
                                             (c_kthresh c))
                   (File 100 (Document seg_doc))).

(** A binary that does so for every scene but [scene0001_00], on which it
    fails. *)
Definition segmentator_picky (c : call) (fs : FS) : proc_result :=
  if String.eqb (Path.name (c_cwd c)) "scene0001_00" then
    Exited 3 "degenerate mesh" fs
  else segmentator_ok c fs.

(** A binary that fails on every input. *)
Definition segmentator_exit1 (c : call) (fs : FS) : proc_result :=
  Exited 1 "cannot read mesh" fs.


(** A binary that exits with status 0 and writes nothing. *)
Definition segmentator_silent (c : call) (fs : FS) : proc_result :=
  Exited 0 "" fs.

Definition script_dir : path := ["bin"].
Definition now : Z := 7.

Definition scene0 : path := ["data"; "scene0000_00"].
Definition scene1 : path := ["data"; "scene0001_00"].
Definition ply0 : path := scene0 // "scene0000_00_vh_clean_2.ply".
Definition ply1 : path := scene1 // "scene0001_00_vh_clean_2.ply".
Definition bin : path := ["bin"; "segmentator"].
Definition out : path := ["out"].

(** Two scenes; the second has no mesh. *)
Definition fs_two_scenes : FS :=
  [ (["bin"], Dir 1);
    (bin, File 1 (Malformed "Expecting value: line 1 column 1 (char 0)"));
    (["data"], Dir 1);
    (scene0, Dir 1);
    (ply0, File 1 (Malformed "Expecting value: line 1 column 1 (char 0)"));
    (scene1, Dir 1);
    (["data"; "notes.txt"], File 1 (Malformed "Expecting value")) ].

(** Two scenes, both with a mesh. *)
Definition fs_two_meshes : FS :=
  [ (["bin"], Dir 1);
    (bin, File 1 (Malformed "Expecting value: line 1 column 1 (char 0)"));
    (["data"], Dir 1);
    (scene0, Dir 1);
    (ply0, File 1 (Malformed "Expecting value: line 1 column 1 (char 0)"));
    (scene1, Dir 1);
    (ply1, File 1 (Malformed "Expecting value: line 1 column 1 (char 0)"))
  ].

(** One scene with a mesh and one candidate already beside it. *)
Definition fs_with_candidate (name : string) (data : payload) : FS :=
  [ (["data"], Dir 1);
    (scene0, Dir 1);
    (ply0, File 1 (Malformed "Expecting value: line 1 column 1 (char 0)"));
    (scene0 // name, File 50 data) ].

Definition args (workers : Z) (skip : bool) : Args :=
  mkArgs ["data"] out None PyFloat.f0_01 20 workers skip.

(** The pool that completes tasks in submission order, and the one that
    completes them in reverse; no worker dies. *)
Definition pool_fifo : Pool :=
  mkPool (fun l => l) (fun l => Permutation_refl l) (fun _ => None).

Definition pool_lifo : Pool :=
  mkPool (@rev path) (fun l => Permutation_sym (Permutation_rev l))
         (fun _ => None).

End Examples.

(** Further worlds. *)
Module Worlds.

(** The output path is taken by a regular file. *)
Definition fs_output_is_file : FS :=
  Examples.fs_two_scenes ++ [ (Examples.out, File 3 (Malformed "not JSON")) ].

(** A scene directory in which a valid segmentation is already present. *)
Definition fs_stale : FS :=
  (["bin"], Dir 1)
    :: (Examples.bin, File 1 (Malformed "Expecting value"))
    :: Examples.fs_with_candidate
         "scene0000_00_vh_clean_2.0.010000.segs.json"
         (Document Examples.seg_doc).

(** The input path names a regular file. *)
Definition args_input_is_file : Args :=
  mkArgs ["data"; "notes.txt"] Examples.out None PyFloat.f0_01 20 1 false.

End Worlds.

(** Worlds in which [exists()] raises, or the delivered path is taken. *)
Module Hazards.

(** The scene directory [scene0000_00] may not be searched: [os.stat] of
    its mesh raises EACCES. *)
Definition denied_message : string :=
  "[Errno 13] Permission denied: 'data/scene0000_00/scene0000_00_vh_clean_2.ply'".

Definition scene0_denied : stat_errors :=
  fun p => if Path.eqb p Examples.ply0 then Some denied_message else None.

(** Nothing raises. *)
Definition no_stat_error : stat_errors := fun _ => None.

(** One scene with a valid candidate; the delivered path of the scene is an
    existing directory. *)
Definition delivered : path :=
  Examples.out // "scene0000_00_vh_clean_2.0.010000.segs.json".

Definition fs_delivered_is_dir : FS :=
  Worlds.fs_stale ++ [ (Examples.out, Dir 2); (delivered, Dir 3) ].

End Hazards.

(* ================================================================== *)
(** * Properties *)

(** ** Formatting *)

Example format_6f_examples :
  PyFloat.format_6f PyFloat.f0_01 = "0.010000"
  /\ PyFloat.format_6f PyFloat.f0_005 = "0.005000"
  /\ PyFloat.format_6f PyFloat.f0_5 = "0.500000"
  /\ PyFloat.format_6f (PyFloat.Finite true 25 (-1)) = "-12.500000"
  /\ PyFloat.format_6f (PyFloat.Finite false 1 (-21)) = "0.000000"
  /\ PyFloat.format_6f (PyFloat.Finite false 3 (-21)) = "0.000001"
  /\ PyFloat.format_6f (PyFloat.Infinite true) = "-inf".
Proof. vm_compute. repeat split. Qed.

Example fnmatch_examples :
  Str.fnmatch "s_vh_clean_2.*.segs.json" "s_vh_clean_2.0.010000.segs.json"
  = true
  /\ Str.fnmatch "s_vh_clean_2.*.segs.json" "s_vh_clean_2.segs.json" = false
  /\ Str.fnmatch "s_vh_clean_2.*.segs.json" "s_vh_clean_2.ply" = false.
Proof. vm_compute. repeat split. Qed.

(** ** Paths *)

Lemma path_eqb_refl (p : path) : Path.eqb p p = true.
Proof.
  induction p as [|a p IH]; simpl; [reflexivity|].
  now rewrite String.eqb_refl, IH.
Qed.

Lemma path_eqb_eq (p q : path) : Path.eqb p q = true <-> p = q.
Proof.
  split.
  - revert q; induction p as [|a p IH]; intros [|b q]; simpl;
      try discriminate; [reflexivity|].
    intros H. apply andb_true_iff in H as [Hab Hpq].
    apply String.eqb_eq in Hab. f_equal; auto.
  - intros ->. apply path_eqb_refl.
Qed.

Lemma path_eqb_neq (p q : path) : Path.eqb p q = false <-> p <> q.
Proof.
  split.
  - intros H E. apply path_eqb_eq in E. congruence.
  - intros H. destruct (Path.eqb p q) eqn:E; [|reflexivity].
    apply path_eqb_eq in E. contradiction.
Qed.

Lemma parent_join (p : path) (n : string) : Path.parent (p // n) = p.
Proof. unfold Path.parent, Path.join. apply removelast_last. Qed.

Lemma name_join (p : path) (n : string) : Path.name (p // n) = n.
Proof. unfold Path.name, Path.join. apply last_last. Qed.

Lemma join_not_nil (p : path) (n : string) : p // n <> [].
Proof. unfold Path.join. destruct p; discriminate. Qed.

Lemma lookup_join (fs : FS) (p : path) (n : string) :
  Fs.lookup fs (p // n) = Fs.find fs (p // n).
Proof.
  unfold Fs.lookup. destruct (p // n) eqn:E; [|reflexivity].
  now apply join_not_nil in E.
Qed.

(** ** Unfolding one task *)

Ltac unfold_scene :=
  unfold process_scene, process_scene_try, bind, subprocess_run, reading,
    writing, ret; simpl fs; simpl calls.

Section SceneSteps.

Variable segmentator : call -> FS -> proc_result.
Variable now : Z.
Variables scene_dir output_dir segmentator_bin : path.
Variable kthresh : PyFloat.t.
Variable seg_min_verts : Z.

Let scene_name := Path.name scene_dir.
Let ply_file := scene_dir // (scene_name +++ "_vh_clean_2.ply").
Let the_call := Call segmentator_bin ply_file kthresh seg_min_verts scene_dir.
Let pattern := scene_name +++ "_vh_clean_2.*.segs.json".
Let output_file := output_dir // output_filename scene_name.
Let run := process_scene segmentator now scene_dir output_dir
                         segmentator_bin kthresh seg_min_verts.

Ltac enter_try Hply :=
  unfold run; unfold_scene; rewrite ?parent_join;
  fold scene_name; fold ply_file; fold the_call; fold pattern;
  fold output_file; rewrite Hply; simpl negb; cbv iota.

Lemma scene_missing_input (w : World) :
  Fs.exists_ (fs w) ply_file = false ->
  run w = ((false, scene_name,
            Some ("PLY file not found: " +++ Path.str ply_file)), w).
Proof.
  intros H. unfold run, process_scene. fold scene_name. fold ply_file.
  now rewrite H.
Qed.

Lemma scene_launch_failed (w : World) (err : string) :
  Fs.exists_ (fs w) ply_file = true ->
  segmentator the_call (fs w) = LaunchFailed err ->
  run w = ((false, scene_name, Some ("Unexpected error: " +++ err)),
           mkWorld (fs w) (calls w ++ [the_call])).
Proof.
  intros Hply Hrun. enter_try Hply. now rewrite Hrun.
Qed.

Lemma scene_nonzero_exit (w : World) (code : Z) (stderr : string) (fs1 : FS) :
  Fs.exists_ (fs w) ply_file = true ->
  segmentator the_call (fs w) = Exited code stderr fs1 ->
  code <> 0%Z ->
  run w = ((false, scene_name, Some ("Segmentator error: " +++ stderr)),
           mkWorld fs1 (calls w ++ [the_call])).
Proof.
  intros Hply Hrun Hcode. enter_try Hply. rewrite Hrun.
  apply Z.eqb_neq in Hcode. now rewrite Hcode.
Qed.

Lemma scene_zero_exit (w : World) (stderr : string) (fs1 : FS) :
  Fs.exists_ (fs w) ply_file = true ->
  segmentator the_call (fs w) = Exited 0 stderr fs1 ->
  run w =
    match resolve_output now scene_dir output_dir kthresh fs1 with
    | (inr r, fs') => (r, mkWorld fs' (calls w ++ [the_call]))
    | (inl (CalledProcessError _ err), fs') =>
        ((false, scene_name, Some ("Segmentator error: " +++ err)),
         mkWorld fs' (calls w ++ [the_call]))
    | (inl (Exception msg), fs') =>
        ((false, scene_name, Some ("Unexpected error: " +++ msg)),
         mkWorld fs' (calls w ++ [the_call]))
    end.
Proof.
  intros Hply Hrun. unfold resolve_output. enter_try Hply. rewrite Hrun.
  change (0 =? 0)%Z with true. cbn [fs calls].
  destruct (Fs.glob fs1 scene_dir pattern) as [|c cs]; [reflexivity|].
  cbn [fs calls].
  destruct (select_candidate kthresh (c :: cs) fs1) as [e|seg_file];
    [destruct e; reflexivity|].
  cbn [fs calls].
  destruct (Fs.load_json fs1 seg_file) as [e|seg_data];
    [destruct e; reflexivity|].
  destruct (py_in "segIndices" seg_data) as [e|present];
    [destruct e; reflexivity|].
  destruct present; [|reflexivity]. cbn [negb fs calls].
  destruct (Fs.mkdir_p now fs1 output_dir) as [e|fs2];
    [destruct e; reflexivity|]. cbn [fs calls].
  destruct (Fs.copy2 fs2 seg_file output_file) as [e|fs3];
    [destruct e; reflexivity|reflexivity].
Qed.

End SceneSteps.

(** ** The file system *)

Lemma find_of_in (fs : FS) (p : path) :
  In p (map fst fs) -> exists n, Fs.find fs p = Some n.
Proof.
  induction fs as [|[q m] fs IH]; simpl; [contradiction|].
  intros [->|Hin].
  - rewrite path_eqb_refl. now exists m.
  - destruct (Path.eqb q p); [now exists m|auto].
Qed.

Lemma children_exist (fs : FS) (d c : path) :
  In c (Fs.children fs d) -> exists n, Fs.lookup fs c = Some n.
Proof.
  unfold Fs.children. rewrite filter_In. intros [Hin Hchild].
  destruct c as [|a c]; [discriminate|]. simpl. now apply find_of_in.
Qed.

Lemma glob_exist (fs : FS) (d : path) (pat : string) (c : path) :
  In c (Fs.glob fs d pat) -> exists n, Fs.lookup fs c = Some n.
Proof.
  unfold Fs.glob. rewrite filter_In. intros [Hin _].
  now apply children_exist with d.
Qed.

Lemma st_mtime_of_lookup (fs : FS) (p : path) (n : node) :
  Fs.lookup fs p = Some n -> exists k, Fs.st_mtime fs p = inr k.
Proof.
  unfold Fs.st_mtime. intros ->. destruct n; eauto.
Qed.

Lemma find_write_same (fs : FS) (p : path) (n : node) :
  Fs.find (Fs.write fs p n) p = Some n.
Proof.
  induction fs as [|[q m] fs IH]; simpl.
  - now rewrite path_eqb_refl.
  - destruct (Path.eqb q p) eqn:E; simpl; rewrite E; auto.
Qed.

Lemma find_write_other (fs : FS) (p q : path) (n : node) :
  p <> q -> Fs.find (Fs.write fs p n) q = Fs.find fs q.
Proof.
  intros Hpq. induction fs as [|[r m] fs IH]; simpl.
  - apply path_eqb_neq in Hpq. now rewrite Hpq.
  - destruct (Path.eqb r p) eqn:E; simpl.
    + apply path_eqb_eq in E. subst r. apply path_eqb_neq in Hpq.
      now rewrite Hpq.
    + destruct (Path.eqb r q); auto.
Qed.

Lemma find_app_some (fs extra : FS) (p : path) (n : node) :
  Fs.find fs p = Some n -> Fs.find (fs ++ extra) p = Some n.
Proof.
  induction fs as [|[q m] fs IH]; simpl; [discriminate|].
  destruct (Path.eqb q p); auto.
Qed.

(** [mkdir] keeps every node that was there. *)
Lemma mkdir_from_keeps (now : Z) (todo : list string) :
  forall (fs fs' : FS) (done p : path) (n : node),
    Fs.mkdir_from now fs done todo = inr fs' ->
    Fs.find fs p = Some n -> Fs.find fs' p = Some n.
Proof.
  induction todo as [|c rest IH]; simpl; intros fs fs' done p n Hmk Hfind.
  - now inversion Hmk; subst.
  - destruct (Fs.find fs (done // c)) as [[mt|mt data]|] eqn:E.
    + eapply IH; eauto.
    + discriminate.
    + eapply IH; eauto. now apply find_app_some.
Qed.

Lemma mkdir_p_keeps (now : Z) (fs fs' : FS) (d p : path) (n : node) :
  Fs.mkdir_p now fs d = inr fs' ->
  Fs.lookup fs p = Some n -> Fs.lookup fs' p = Some n.
Proof.
  unfold Fs.mkdir_p, Fs.lookup. destruct p; [auto|].
  apply mkdir_from_keeps.
Qed.

(** What a successful [copy2] leaves at its destination. *)
Lemma copy2_exists (fs fs' : FS) (src : path) (d : path) (n : string) :
  Fs.copy2 fs src (d // n) = inr fs' -> Fs.exists_ fs' (d // n) = true.
Proof.
  unfold Fs.copy2. cbv zeta. set (dst := d // n).
  assert (Hlook : forall g, Fs.lookup g dst = Fs.find g dst)
    by (intros g; apply lookup_join).
  destruct (Fs.is_dir fs dst) eqn:Hdir.
  - destruct (Path.eqb src (dst // Path.name src)); [discriminate|].
    destruct (Fs.lookup fs src) as [[mt|mt [err|err|doc]]|]; try discriminate.
    all: destruct (Fs.is_dir fs (dst // Path.name src)); try discriminate.
    all: destruct (Fs.is_dir fs (Path.parent (dst // Path.name src)));
      try discriminate.
    all: intros H; inversion H; subst fs'; clear H.
    all: unfold Fs.exists_; rewrite Hlook, find_write_other.
    all: try (intros Heq; apply (f_equal (@List.length string)) in Heq;
              unfold Path.join in Heq; rewrite length_app in Heq;
              simpl in Heq; lia).
    all: unfold Fs.is_dir in Hdir; rewrite Hlook in Hdir.
    all: destruct (Fs.find fs dst); [reflexivity|discriminate].
  - destruct (Path.eqb src dst); [discriminate|].
    destruct (Fs.lookup fs src) as [[mt|mt [err|err|doc]]|]; try discriminate.
    all: rewrite ?Hdir.
    all: destruct (Fs.is_dir fs (Path.parent dst)); try discriminate.
    all: intros H; inversion H; subst fs'; clear H.
    all: unfold Fs.exists_; now rewrite Hlook, find_write_same.
Qed.

Lemma copy2_content (fs fs' : FS) (src : path) (d : path) (n : string) :
  Fs.copy2 fs src (d // n) = inr fs' ->
  Fs.is_dir fs (d // n) = false ->
  exists mt data,
    Fs.lookup fs src = Some (File mt data) /\
    Fs.lookup fs' (d // n) = Some (File mt data).
Proof.
  unfold Fs.copy2. cbv zeta. intros H Hdir.
  rewrite Hdir in H. cbv iota in H. rewrite ?Hdir in H.
  destruct (Path.eqb src (d // n)); [discriminate|].
  destruct (Fs.lookup fs src) as [[mt|mt data]|]; try discriminate.
  exists mt, data. split; [reflexivity|].
  rewrite lookup_join.
  destruct data; try discriminate;
    destruct (Fs.is_dir fs (Path.parent (d // n))); try discriminate;
    inversion H; apply find_write_same.
Qed.

(** ** Selecting a candidate *)

(** The scan for the greatest modification time returns a candidate, one of
    greatest time, whenever every candidate can be [stat]ed. *)
Lemma max_scan_spec (fs : FS) (rest : list path) :
  forall (best : path) (best_key : Z),
    Fs.st_mtime fs best = inr best_key ->
    (forall c, In c rest -> exists k, Fs.st_mtime fs c = inr k) ->
    exists c k,
      max_scan fs best best_key rest = inr c /\
      In c (best :: rest) /\
      Fs.st_mtime fs c = inr k /\
      (best_key <= k)%Z /\
      (forall c' k', In c' rest -> Fs.st_mtime fs c' = inr k' -> (k' <= k)%Z).
Proof.
  induction rest as [|x rest IH]; intros best best_key Hbest Hall; simpl.
  - exists best, best_key.
    repeat split; auto with zarith; try (now left); try (intros c' k' []).
  - destruct (Hall x (or_introl eq_refl)) as [kx Hx]. rewrite Hx.
    assert (Hrest : forall c, In c rest -> exists k, Fs.st_mtime fs c = inr k)
      by (intros c Hc; apply Hall; now right).
    destruct (best_key <? kx)%Z eqn:Hlt.
    + apply Z.ltb_lt in Hlt.
      destruct (IH x kx Hx Hrest) as (c & k & Hrun & Hin & Hk & Hle & Hmax).
      exists c, k.
      split; [exact Hrun|]. split; [now right|]. split; [exact Hk|].
      split; [lia|].
      intros c' k' [<-|Hc'] Hk'; [|eauto]. rewrite Hx in Hk'.
      inversion Hk'; subst. exact Hle.
    + apply Z.ltb_ge in Hlt.
      destruct (IH best best_key Hbest Hrest)
        as (c & k & Hrun & Hin & Hk & Hle & Hmax).
      exists c, k.
      split; [exact Hrun|].
      split; [destruct Hin as [<-|Hin]; [now left|right; now right]|].
      split; [exact Hk|]. split; [exact Hle|].
      intros c' k' [<-|Hc'] Hk'; [|eauto]. rewrite Hx in Hk'.
      inversion Hk'; subst. lia.
Qed.

Lemma max_by_mtime_spec (fs : FS) (candidates : list path) :
  candidates <> [] ->
  (forall c, In c candidates -> exists k, Fs.st_mtime fs c = inr k) ->
  exists c k,
    max_by_mtime candidates fs = inr c /\
    In c candidates /\
    Fs.st_mtime fs c = inr k /\
    (forall c' k',
        In c' candidates -> Fs.st_mtime fs c' = inr k' -> (k' <= k)%Z).
Proof.
  destruct candidates as [|x rest]; [congruence|]. intros _ Hall. simpl.
  destruct (Hall x (or_introl eq_refl)) as [kx Hx]. rewrite Hx.
  destruct (max_scan_spec fs rest x kx Hx) as (c & k & Hrun & Hin & Hk & Hle & Hmax).
  { intros c Hc. apply Hall. now right. }
  exists c, k.
  split; [exact Hrun|]. split; [exact Hin|]. split; [exact Hk|].
  intros c' k' [<-|Hc'] Hk'; [|eauto]. rewrite Hx in Hk'.
  inversion Hk'; subst. exact Hle.
Qed.

Lemma filter_first {A} (f : A -> bool) (pre post : list A) (c : A) :
  (forall x, In x pre -> f x = false) -> f c = true ->
  filter f (pre ++ c :: post) = c :: filter f post.
Proof.
  intros Hpre Hc. induction pre as [|x pre IH]; simpl.
  - now rewrite Hc.
  - rewrite (Hpre x (or_introl eq_refl)). apply IH.
    intros y Hy. apply Hpre. now right.
Qed.

Lemma filter_none {A} (f : A -> bool) (l : list A) :
  (forall x, In x l -> f x = false) -> filter f l = [].
Proof.
  induction l as [|x l IH]; simpl; [reflexivity|]. intros H.
  rewrite (H x (or_introl eq_refl)). apply IH. intros y Hy. apply H. now right.
Qed.

(** ** Inverting a successful task *)

Lemma scene_success_inv
      (segmentator : call -> FS -> proc_result) (now : Z)
      (scene_dir output_dir segmentator_bin : path)
      (kthresh : PyFloat.t) (seg_min_verts : Z) (w w' : World)
      (nm : string) (detail : option string) :
  let ply_file := scene_dir // (Path.name scene_dir +++ "_vh_clean_2.ply") in
  let the_call :=
    Call segmentator_bin ply_file kthresh seg_min_verts scene_dir in
  process_scene segmentator now scene_dir output_dir segmentator_bin kthresh
                seg_min_verts w = ((true, nm, detail), w') ->
  exists stderr fs1,
    Fs.exists_ (fs w) ply_file = true /\
    segmentator the_call (fs w) = Exited 0 stderr fs1 /\
    resolve_output now scene_dir output_dir kthresh fs1
    = (inr (true, nm, detail), fs w') /\
    calls w' = calls w ++ [the_call].
Proof.
  intros ply_file the_call H.
  destruct (Fs.exists_ (fs w) ply_file) eqn:Hply.
  2:{ rewrite scene_missing_input in H by exact Hply. discriminate. }
  destruct (segmentator the_call (fs w)) as [err|code stderr fs1] eqn:Hrun.
  { rewrite (scene_launch_failed _ _ _ _ _ _ _ _ _ Hply Hrun) in H.
    discriminate. }
  destruct (Z.eq_dec code 0) as [->|Hcode].
  2:{ rewrite (scene_nonzero_exit _ _ _ _ _ _ _ _ _ _ _ Hply Hrun Hcode) in H.
      discriminate. }
  rewrite (scene_zero_exit _ _ _ _ _ _ _ _ _ _ Hply Hrun) in H.
  exists stderr, fs1. split; [reflexivity|]. split; [reflexivity|].
  destruct (resolve_output now scene_dir output_dir kthresh fs1)
    as [[[code err|msg]|r] fs'].
  - discriminate.
  - discriminate.
  - inversion H; subst. auto.
Qed.

Lemma resolve_output_success_inv (now : Z) (scene_dir output_dir : path)
      (kthresh : PyFloat.t) (fs1 fs3 : FS)
      (nm : string) (detail : option string) :
  let scene_name := Path.name scene_dir in
  resolve_output now scene_dir output_dir kthresh fs1
  = (inr (true, nm, detail), fs3) ->
  exists seg_file seg_data fs2,
    select_candidate kthresh
      (Fs.glob fs1 scene_dir (scene_name +++ "_vh_clean_2.*.segs.json")) fs1
    = inr seg_file /\
    Fs.load_json fs1 seg_file = inr seg_data /\
    py_in "segIndices" seg_data = inr true /\
    Fs.mkdir_p now fs1 output_dir = inr fs2 /\
    Fs.copy2 fs2 seg_file (output_dir // output_filename scene_name)
    = inr fs3 /\
    nm = scene_name /\ detail = None.
Proof.
  intros scene_name. unfold resolve_output. fold scene_name.
  destruct (Fs.glob fs1 scene_dir (scene_name +++ "_vh_clean_2.*.segs.json"))
    as [|c cs]; [discriminate|].
  destruct (select_candidate kthresh (c :: cs) fs1) as [e|seg_file] eqn:Hsel;
    [discriminate|].
  destruct (Fs.load_json fs1 seg_file) as [e|seg_data] eqn:Hload;
    [discriminate|].
  destruct (py_in "segIndices" seg_data) as [e|[|]] eqn:Hin;
    try discriminate.
  destruct (Fs.mkdir_p now fs1 output_dir) as [e|fs2] eqn:Hmk;
    [discriminate|].
  destruct (Fs.copy2 fs2 seg_file (output_dir // output_filename scene_name))
    as [e|fs3'] eqn:Hcopy; [discriminate|].
  intros H. inversion H; subst.
  exists seg_file, seg_data, fs2.
  repeat split; try reflexivity; try assumption.
Qed.

Lemma load_json_document (fs : FS) (p : path) (doc : json) :
  Fs.load_json fs p = inr doc ->
  exists mt, Fs.lookup fs p = Some (File mt (Document doc)).
Proof.
  unfold Fs.load_json.
  destruct (Fs.lookup fs p) as [[mt|mt [err|err|d]]|]; try discriminate.
  intros H. inversion H. now exists mt.
Qed.

(** ** What one task returns and logs *)

Section SceneFacts.

Variable segmentator : call -> FS -> proc_result.
Variable now : Z.
Variables scene_dir output_dir segmentator_bin : path.
Variable kthresh : PyFloat.t.
Variable seg_min_verts : Z.

Let scene_name := Path.name scene_dir.
Let ply_file := scene_dir // (scene_name +++ "_vh_clean_2.ply").
Let the_call := Call segmentator_bin ply_file kthresh seg_min_verts scene_dir.
Let run := process_scene segmentator now scene_dir output_dir
                         segmentator_bin kthresh seg_min_verts.

Lemma resolve_output_scene (fs1 fs' : FS) (r : result) :
  resolve_output now scene_dir output_dir kthresh fs1 = (inr r, fs') ->
  r_scene r = scene_name.
Proof.
  unfold resolve_output. fold scene_name.
  destruct (Fs.glob fs1 scene_dir (scene_name +++ "_vh_clean_2.*.segs.json"))
    as [|c cs].
  { intros H. inversion H. reflexivity. }
  destruct (select_candidate kthresh (c :: cs) fs1) as [e|seg_file];
    [discriminate|].
  destruct (Fs.load_json fs1 seg_file) as [e|seg_data]; [discriminate|].
  destruct (py_in "segIndices" seg_data) as [e|[|]]; [discriminate| |].
  - destruct (Fs.mkdir_p now fs1 output_dir) as [e|fs2]; [discriminate|].
    destruct (Fs.copy2 fs2 seg_file
                       (output_dir // output_filename scene_name))
      as [e|fs3]; [discriminate|].
    intros H. inversion H. reflexivity.
  - intros H. inversion H. reflexivity.
Qed.

(** Every way out of [process_scene] names the scene of the task, and the
    task logs no call or exactly its own. *)
Lemma scene_result_facts (w : World) :
  r_scene (fst (run w)) = scene_name
  /\ (calls (snd (run w)) = calls w
      \/ calls (snd (run w)) = calls w ++ [the_call]).
Proof.
  destruct (Fs.exists_ (fs w) ply_file) eqn:Hply.
  2:{ unfold run. rewrite scene_missing_input by exact Hply. auto. }
  destruct (segmentator the_call (fs w)) as [err|code stderr fs1] eqn:Hrun.
  { unfold run. rewrite (scene_launch_failed _ _ _ _ _ _ _ _ _ Hply Hrun).
    auto. }
  destruct (Z.eq_dec code 0) as [->|Hcode].
  2:{ unfold run.
      rewrite (scene_nonzero_exit _ _ _ _ _ _ _ _ _ _ _ Hply Hrun Hcode).
      auto. }
  unfold run. rewrite (scene_zero_exit _ _ _ _ _ _ _ _ _ _ Hply Hrun).
  destruct (resolve_output now scene_dir output_dir kthresh fs1)
    as [[[code err|msg]|r] fs'] eqn:Hres; simpl; auto.
  split; [|auto]. eapply resolve_output_scene; eauto.
Qed.

Lemma scene_result_scene (w : World) : r_scene (fst (run w)) = scene_name.
Proof. apply scene_result_facts. Qed.


End SceneFacts.

(** ** Aggregation *)

Lemma record_exception_as_result (scene_dir : path) (msg : string)
      (rep : Report) :
  record_exception scene_dir msg rep
  = record_result (false, Path.name scene_dir, Some msg) rep.
Proof. reflexivity. Qed.

Lemma tally_counts (outcomes : list result) :
  forall rep,
    success_count (tally outcomes rep) + fail_count (tally outcomes rep)
    = success_count rep + fail_count rep + List.length outcomes.
Proof.
  induction outcomes as [|[[ok nm] msg] outcomes IH]; intros rep; simpl.
  - lia.
  - unfold tally in *. simpl. rewrite IH. destruct ok; simpl; lia.
Qed.

Lemma tally_ledger (outcomes : list result) :
  forall rep,
    List.length (failed_scenes rep) = fail_count rep ->
    List.length (failed_scenes (tally outcomes rep))
    = fail_count (tally outcomes rep).
Proof.
  induction outcomes as [|[[ok nm] msg] outcomes IH]; intros rep Hrep; simpl.
  - exact Hrep.
  - unfold tally in *. simpl. apply IH. destruct ok; simpl; [exact Hrep|].
    rewrite length_app. simpl. lia.
Qed.

Section Loops.

Variable segmentator : call -> FS -> proc_result.
Variable now : Z.
Variables output_dir segmentator_bin : path.
Variable kthresh : PyFloat.t.
Variable seg_min_verts : Z.

Let seq := run_sequential segmentator now output_dir segmentator_bin kthresh
                          seg_min_verts.
Let seq_outcomes :=
  outcomes_sequential segmentator now output_dir segmentator_bin kthresh
                      seg_min_verts.

Lemma run_sequential_tally (scene_dirs : list path) :
  forall rep w,
    fst (seq scene_dirs rep w) = tally (seq_outcomes scene_dirs w) rep.
Proof.
  unfold seq, seq_outcomes. induction scene_dirs as [|d rest IH]; intros rep w; simpl; [reflexivity|].
  destruct (process_scene segmentator now d output_dir segmentator_bin
                          kthresh seg_min_verts w) as [r w'].
  apply IH.
Qed.

Lemma outcomes_sequential_scenes (scene_dirs : list path) :
  forall w, map r_scene (seq_outcomes scene_dirs w) = map Path.name scene_dirs.
Proof.
  unfold seq_outcomes. induction scene_dirs as [|d rest IH]; intros w; simpl; [reflexivity|].
  pose proof (scene_result_scene segmentator now d output_dir segmentator_bin
                                 kthresh seg_min_verts w) as Hname.
  destruct (process_scene segmentator now d output_dir segmentator_bin
                          kthresh seg_min_verts w) as [r w'].
  simpl in *. now rewrite Hname, IH.
Qed.

Variable pool : Pool.

Let par := run_completed segmentator now pool output_dir segmentator_bin
                         kthresh seg_min_verts.
Let par_outcomes :=
  outcomes_completed segmentator now pool output_dir segmentator_bin kthresh
                     seg_min_verts.

Lemma run_completed_tally (completed : list path) :
  forall rep w,
    fst (par completed rep w) = tally (par_outcomes completed w) rep.
Proof.
  unfold par, par_outcomes. induction completed as [|d rest IH]; intros rep w; simpl; [reflexivity|].
  destruct (fault pool d) as [msg|].
  - rewrite record_exception_as_result. apply IH.
  - destruct (process_scene segmentator now d output_dir segmentator_bin
                            kthresh seg_min_verts w) as [r w'].
    apply IH.
Qed.

Lemma outcomes_completed_scenes (completed : list path) :
  forall w, map r_scene (par_outcomes completed w) = map Path.name completed.
Proof.
  unfold par_outcomes. induction completed as [|d rest IH]; intros w; simpl; [reflexivity|].
  destruct (fault pool d) as [msg|].
  - simpl. now rewrite IH.
  - pose proof (scene_result_scene segmentator now d output_dir
                                   segmentator_bin kthresh seg_min_verts w)
      as Hname.
    destruct (process_scene segmentator now d output_dir segmentator_bin
                            kthresh seg_min_verts w) as [r w'].
    simpl in *. now rewrite Hname, IH.
Qed.

End Loops.

Lemma run_batch_tally
      (segmentator : call -> FS -> proc_result) (now : Z) (pool : Pool)
      (args : Args) (segmentator_bin : path) (scene_dirs : list path)
      (w : World) :
  fst (run_batch segmentator now pool args segmentator_bin scene_dirs w)
  = tally (outcomes_batch segmentator now pool args segmentator_bin
                          scene_dirs w) empty_report.
Proof.
  unfold run_batch, outcomes_batch.
  destruct (1 <? num_workers args)%Z.
  - apply run_completed_tally.
  - apply run_sequential_tally.
Qed.

Lemma outcomes_batch_scenes
      (segmentator : call -> FS -> proc_result) (now : Z) (pool : Pool)
      (args : Args) (segmentator_bin : path) (scene_dirs : list path)
      (w : World) :
  Permutation
    (map r_scene (outcomes_batch segmentator now pool args segmentator_bin
                                 scene_dirs w))
    (map Path.name scene_dirs).
Proof.
  unfold outcomes_batch.
  destruct (1 <? num_workers args)%Z.
  - rewrite outcomes_completed_scenes.
    apply Permutation_map, completion_perm.
  - rewrite outcomes_sequential_scenes. apply Permutation_refl.
Qed.

(** ** The calls of a batch *)

Lemma find_app_other (fs : FS) (q p : path) (n : node) :
  q <> p -> Fs.find (fs ++ [(q, n)]) p = Fs.find fs p.
Proof.
  intros Hqp. induction fs as [|[r m] fs IH]; simpl.
  - apply path_eqb_neq in Hqp. now rewrite Hqp.
  - destruct (Path.eqb r p); auto.
Qed.

(** [mkdir] touches no path longer than the directory it creates. *)
Lemma mkdir_from_deep (now : Z) (todo : list string) :
  forall (fs fs' : FS) (done p : path),
    Fs.mkdir_from now fs done todo = inr fs' ->
    List.length done + List.length todo < List.length p ->
    Fs.find fs' p = Fs.find fs p.
Proof.
  induction todo as [|c rest IH]; simpl; intros fs fs' done p Hmk Hlen.
  - now inversion Hmk.
  - assert (Hstep : List.length (done // c) + List.length rest
                    < List.length p).
    { unfold Path.join. rewrite length_app. simpl. lia. }
    destruct (Fs.find fs (done // c)) as [[mt|mt data]|] eqn:E.
    + eapply IH; eauto.
    + discriminate.
    + rewrite (IH _ _ _ _ Hmk Hstep). apply find_app_other.
      intros Heq. subst p. unfold Path.join in Hlen.
      rewrite length_app in Hlen. simpl in Hlen. lia.
Qed.

Lemma mkdir_p_entry (now : Z) (fs fs' : FS) (d : path) (n : string) :
  Fs.mkdir_p now fs d = inr fs' ->
  Fs.exists_ fs' (d // n) = Fs.exists_ fs (d // n).
Proof.
  intros Hmk. unfold Fs.exists_. rewrite !lookup_join.
  unfold Fs.mkdir_p in Hmk.
  rewrite (mkdir_from_deep _ _ _ _ _ (d // n) Hmk); [reflexivity|].
  unfold Path.join. rewrite length_app. simpl. lia.
Qed.

Section BatchCalls.

Variable segmentator : call -> FS -> proc_result.
Variable now : Z.
Variables output_dir segmentator_bin : path.
Variable kthresh : PyFloat.t.
Variable seg_min_verts : Z.






End BatchCalls.




(** ** The tally of a permuted sequence of outcomes *)

Lemma tally_closed_form (outcomes : list result) :
  forall rep,
    tally outcomes rep
    = mkReport
        (success_count rep + List.length (filter r_success outcomes))
        (fail_count rep + List.length (filter failed outcomes))
        (failed_scenes rep ++ map ledger_line (filter failed outcomes)).
Proof.
  induction outcomes as [|[[ok nm] msg] outcomes IH]; intros [sc fc fl].
  - simpl. now rewrite !Nat.add_0_r, app_nil_r.
  - unfold tally in *. cbn [fold_left]. rewrite IH.
    destruct ok; cbn; f_equal; try lia.
    now rewrite <- app_assoc.
Qed.

Lemma perm_filter {A} (f : A -> bool) (l l' : list A) :
  Permutation l l' -> Permutation (filter f l) (filter f l').
Proof.
  induction 1 as [|x l l' _ IH|x y l|l l' l'' _ IH1 _ IH2]; simpl.
  - constructor.
  - destruct (f x); [now constructor|exact IH].
  - destruct (f x), (f y); try apply Permutation_refl. constructor.
  - now transitivity (filter f l').
Qed.

Lemma tally_permutation (outcomes outcomes' : list result) (rep : Report) :
  Permutation outcomes outcomes' ->
  success_count (tally outcomes rep) = success_count (tally outcomes' rep)
  /\ fail_count (tally outcomes rep) = fail_count (tally outcomes' rep)
  /\ Permutation (failed_scenes (tally outcomes rep))
                 (failed_scenes (tally outcomes' rep)).
Proof.
  intros Hperm. rewrite !tally_closed_form. simpl.
  split; [|split].
  - f_equal. apply Permutation_length. now apply perm_filter.
  - f_equal. apply Permutation_length. now apply perm_filter.
  - apply Permutation_app_head, Permutation_map. now apply perm_filter.
Qed.

(** ** Order independence *)

Section Orders.

Variable segmentator : call -> FS -> proc_result.
Variable now : Z.
Variables output_dir segmentator_bin : path.
Variable kthresh : PyFloat.t.
Variable seg_min_verts : Z.
Variable tasks : list path.
Variable w0 : World.

Hypothesis independent :
  order_independent segmentator now output_dir segmentator_bin kthresh
                    seg_min_verts tasks w0.

Let outcome := task_outcome segmentator now output_dir segmentator_bin
                            kthresh seg_min_verts.
Let after := after_tasks segmentator now output_dir segmentator_bin kthresh
                         seg_min_verts.

Lemma after_snoc (earlier : list path) (d : path) (w : World) :
  after (earlier ++ [d]) w
  = snd (process_scene segmentator now d output_dir segmentator_bin kthresh
                       seg_min_verts (after earlier w)).
Proof. unfold after, after_tasks. now rewrite fold_left_app. Qed.

(** Run in any duplicate-free order, every task returns what it returns in
    the initial world. *)
Lemma outcomes_sequential_fixed (order : list path) :
  forall earlier,
    NoDup (earlier ++ order) -> incl (earlier ++ order) tasks ->
    outcomes_sequential segmentator now output_dir segmentator_bin kthresh
                        seg_min_verts order (after earlier w0)
    = map (fun d => outcome d w0) order.
Proof.
  induction order as [|d rest IH]; intros earlier Hnodup Hincl; simpl.
  - reflexivity.
  - assert (Hd : outcome d (after earlier w0) = outcome d w0).
    { apply independent.
      - apply Hincl, in_or_app. right. now left.
      - now apply NoDup_app_remove_r in Hnodup.
      - intros x Hx. apply Hincl, in_or_app. now left.
      - apply NoDup_remove_2 in Hnodup. intros Hin. apply Hnodup.
        apply in_or_app. now left. }
    unfold outcome, task_outcome in Hd.
    pose proof (after_snoc earlier d w0) as Hsnoc.
    destruct (process_scene segmentator now d output_dir segmentator_bin
                            kthresh seg_min_verts (after earlier w0))
      as [r w1].
    simpl in Hd, Hsnoc. subst r. f_equal. rewrite <- Hsnoc.
    apply IH; rewrite <- app_assoc; assumption.
Qed.

Lemma outcomes_completed_no_fault (pool : Pool) :
  (forall d, fault pool d = None) ->
  forall completed w,
    outcomes_completed segmentator now pool output_dir segmentator_bin
                       kthresh seg_min_verts completed w
    = outcomes_sequential segmentator now output_dir segmentator_bin kthresh
                          seg_min_verts completed w.
Proof.
  intros Hfault. induction completed as [|d rest IH]; intros w; simpl.
  - reflexivity.
  - rewrite Hfault.
    destruct (process_scene segmentator now d output_dir segmentator_bin
                            kthresh seg_min_verts w) as [r w1].
    now rewrite IH.
Qed.

End Orders.

(** With two tasks, what ran before one of them is nothing or the other. *)
Lemma earlier_of_two (a b d : path) (earlier : list path) :
  NoDup earlier -> incl earlier [a; b] -> ~ In d earlier ->
  (d = a -> earlier = [] \/ earlier = [b])
  /\ (d = b -> earlier = [] \/ earlier = [a]).
Proof.
  intros Hnodup Hincl Hnot.
  assert (Hcase : forall x other,
             [a; b] = [x; other] \/ [a; b] = [other; x] ->
             d = x -> earlier = [] \/ earlier = [other]).
  { intros x other Hab ->.
    assert (Hmem : forall y, In y earlier -> y = other).
    { intros y Hy. pose proof (Hincl y Hy) as Hin.
      assert (y <> x) by (intros ->; contradiction).
      destruct Hab as [Hab|Hab]; injection Hab as -> ->;
        destruct Hin as [<-|[<-|[]]]; congruence. }
    destruct earlier as [|y rest]; [now left|right].
    rewrite (Hmem y (or_introl eq_refl)) in *.
    destruct rest as [|z rest]; [reflexivity|exfalso].
    inversion Hnodup as [|? ? Hnotin _]; subst. apply Hnotin.
    left. apply Hmem. right. now left. }
  split; intros Hd.
  - apply (Hcase a b); auto.
  - apply (Hcase b a); auto.
Qed.

Lemma batch_counts_add_up
      (segmentator : call -> FS -> proc_result) (now : Z) (pool : Pool)
      (args : Args) (segmentator_bin : path) (scene_dirs : list path)
      (w : World) :
  let rep :=
    fst (run_batch segmentator now pool args segmentator_bin scene_dirs w) in
  success_count rep + fail_count rep = List.length scene_dirs.
Proof.
  intros rep. unfold rep. rewrite run_batch_tally, tally_counts. simpl.
  pose proof (outcomes_batch_scenes segmentator now pool args segmentator_bin
                                    scene_dirs w) as Hperm.
  apply Permutation_length in Hperm. now rewrite !length_map in Hperm.
Qed.

(* ================================================================== *)
(** * The claims of the specification *)





(** C2. When some candidate's file name contains the threshold printed with
    six decimals, the first such candidate in the order of the glob is the one
    selected, whatever the time stamps are.  The witness is the
    specification's example: of ["s_vh_clean_2.0.005000.segs.json"] and
    ["s_vh_clean_2.0.010000.segs.json"] the threshold 0.01 selects the
    second. *)
Theorem exact_match_selects_first
        (kthresh : PyFloat.t) (before after : list path) (c : path) (fs : FS) :
  (forall x, In x before ->
             Str.contains (PyFloat.format_6f kthresh) (Path.name x) = false) ->
  Str.contains (PyFloat.format_6f kthresh) (Path.name c) = true ->
  select_candidate kthresh (before ++ c :: after) fs = inr c.
Proof.
  intros Hbefore Hc. unfold select_candidate.
  now rewrite (filter_first _ before after c Hbefore Hc).
Qed.

Lemma exact_match_selects_first_witness :
  select_candidate PyFloat.f0_01
                   [ ["s"; "s_vh_clean_2.0.005000.segs.json"];
                     ["s"; "s_vh_clean_2.0.010000.segs.json"] ]
                   [ (["s"; "s_vh_clean_2.0.005000.segs.json"],
                      File 200 (Document Examples.seg_doc));
                     (["s"; "s_vh_clean_2.0.010000.segs.json"],
                      File 100 (Document Examples.seg_doc)) ]
  = inr ["s"; "s_vh_clean_2.0.010000.segs.json"].
Proof.
  apply (exact_match_selects_first
           PyFloat.f0_01 [ ["s"; "s_vh_clean_2.0.005000.segs.json"] ] []
           ["s"; "s_vh_clean_2.0.010000.segs.json"]).
  - intros x [<-|[]]. vm_compute. reflexivity.
  - vm_compute. reflexivity.
Defined.

(** C4. After a run with exit status 0: with no candidate the task fails
    with "No segs.json file generated for <scene>"; with candidates none of
    which carries the printed threshold, the selection raises nothing and
    returns one of the candidates, whose modification time is the greatest
    among them, also when several share it. *)
Theorem fallback_selects_latest
        (segmentator : call -> FS -> proc_result) (now : Z)
        (scene_dir output_dir segmentator_bin : path)
        (kthresh : PyFloat.t) (seg_min_verts : Z) (w : World)
        (stderr : string) (fs1 : FS) :
  let scene_name := Path.name scene_dir in
  let ply_file := scene_dir // (scene_name +++ "_vh_clean_2.ply") in
  let the_call :=
    Call segmentator_bin ply_file kthresh seg_min_verts scene_dir in
  let candidates :=
    Fs.glob fs1 scene_dir (scene_name +++ "_vh_clean_2.*.segs.json") in
  Fs.exists_ (fs w) ply_file = true ->
  segmentator the_call (fs w) = Exited 0 stderr fs1 ->
  (candidates = [] ->
   process_scene segmentator now scene_dir output_dir segmentator_bin kthresh
                 seg_min_verts w
   = ((false, scene_name,
       Some ("No segs.json file generated for " +++ scene_name)),
      mkWorld fs1 (calls w ++ [the_call])))
  /\
  (candidates <> [] ->
   (forall c, In c candidates ->
              Str.contains (PyFloat.format_6f kthresh) (Path.name c) = false) ->
   exists seg_file latest,
     select_candidate kthresh candidates fs1 = inr seg_file /\
     In seg_file candidates /\
     Fs.st_mtime fs1 seg_file = inr latest /\
     (forall c t, In c candidates -> Fs.st_mtime fs1 c = inr t ->
                  (t <= latest)%Z)).
Proof.
  intros scene_name ply_file the_call candidates Hply Hrun. split.
  - intros Hnone.
    rewrite (scene_zero_exit _ _ _ _ _ _ _ _ _ _ Hply Hrun).
    unfold resolve_output. fold scene_name. fold candidates.
    now rewrite Hnone.
  - intros Hsome Hnomatch. unfold select_candidate.
    rewrite (filter_none _ candidates Hnomatch).
    apply max_by_mtime_spec; [exact Hsome|].
    intros c Hc. destruct (glob_exist _ _ _ _ Hc) as [n Hn].
    now apply st_mtime_of_lookup with n.
Qed.

Lemma fallback_selects_latest_witness :
  let tied :=
    Examples.fs_with_candidate "scene0000_00_vh_clean_2.0.500000.segs.json"
                               (Document Examples.seg_doc)
    ++ [ (Examples.scene0 // "scene0000_00_vh_clean_2.0.250000.segs.json",
          File 50 (Document Examples.seg_doc)) ] in
  let candidates :=
    Fs.glob tied Examples.scene0 "scene0000_00_vh_clean_2.*.segs.json" in
  let bare := mkWorld Examples.fs_two_scenes [] in
  process_scene Examples.segmentator_silent Examples.now Examples.scene0
                Examples.out Examples.bin PyFloat.f0_01 20 bare
  = ((false, "scene0000_00",
      Some "No segs.json file generated for scene0000_00"),
     mkWorld Examples.fs_two_scenes
             [Call Examples.bin Examples.ply0 PyFloat.f0_01 20
                   Examples.scene0])
  /\
  exists seg_file latest,
    select_candidate PyFloat.f0_01 candidates tied = inr seg_file /\
    In seg_file candidates /\
    Fs.st_mtime tied seg_file = inr latest /\
    (forall c t, In c candidates -> Fs.st_mtime tied c = inr t ->
                 (t <= latest)%Z).
Proof.
  intros tied candidates bare. split.
  - apply (proj1 (fallback_selects_latest
                    Examples.segmentator_silent Examples.now Examples.scene0
                    Examples.out Examples.bin PyFloat.f0_01 20 bare ""
                    (fs bare) eq_refl eq_refl)).
    reflexivity.
  - apply (proj2 (fallback_selects_latest
                    Examples.segmentator_silent Examples.now Examples.scene0
                    Examples.out Examples.bin PyFloat.f0_01 20
                    (mkWorld tied []) "" tied eq_refl eq_refl)).
    + vm_compute. discriminate.
    + intros c Hc. vm_compute in Hc.
      destruct Hc as [<-|[<-|[]]]; vm_compute; reflexivity.
Defined.

(** With equal time stamps the candidate kept is the first one the glob
    returned. *)
Example fallback_tie_keeps_first :
  let tied :=
    Examples.fs_with_candidate "scene0000_00_vh_clean_2.0.500000.segs.json"
                               (Document Examples.seg_doc)
    ++ [ (Examples.scene0 // "scene0000_00_vh_clean_2.0.250000.segs.json",
          File 50 (Document Examples.seg_doc)) ] in
  let candidates :=
    Fs.glob tied Examples.scene0 "scene0000_00_vh_clean_2.*.segs.json" in
  candidates
  = [ Examples.scene0 // "scene0000_00_vh_clean_2.0.500000.segs.json";
      Examples.scene0 // "scene0000_00_vh_clean_2.0.250000.segs.json" ]
  /\ select_candidate PyFloat.f0_01 candidates tied
     = inr (Examples.scene0 // "scene0000_00_vh_clean_2.0.500000.segs.json").
Proof. vm_compute. split; reflexivity. Qed.

(** Delivery, where the delivered path is not a directory.  A task that
    succeeds has handed the selected, validated document to [copy2] with the
    destination [<output_dir>/<scene>_vh_clean_2.0.010000.segs.json], a name
    in which the threshold does not occur; afterwards that path exists, and
    unless it was a directory before it holds the document and the
    modification time of the selected candidate. *)
Theorem success_writes_canonical_output
        (segmentator : call -> FS -> proc_result) (now : Z)
        (scene_dir output_dir segmentator_bin : path)
        (kthresh : PyFloat.t) (seg_min_verts : Z) (w w' : World)
        (nm : string) (detail : option string) :
  let scene_name := Path.name scene_dir in
  let canonical :=
    output_dir // (scene_name +++ "_vh_clean_2.0.010000.segs.json") in
  process_scene segmentator now scene_dir output_dir segmentator_bin kthresh
                seg_min_verts w = ((true, nm, detail), w') ->
  exists seg_file seg_data mt fs1 fs2,
    select_candidate kthresh
      (Fs.glob fs1 scene_dir (scene_name +++ "_vh_clean_2.*.segs.json")) fs1
    = inr seg_file /\
    Fs.lookup fs1 seg_file = Some (File mt (Document seg_data)) /\
    py_in "segIndices" seg_data = inr true /\
    Fs.mkdir_p now fs1 output_dir = inr fs2 /\
    Fs.copy2 fs2 seg_file canonical = inr (fs w') /\
    Fs.exists_ (fs w') canonical = true /\
    (Fs.is_dir fs2 canonical = false ->
     Fs.lookup (fs w') canonical = Some (File mt (Document seg_data))).
Proof.
  intros scene_name canonical H.
  apply scene_success_inv in H as (stderr & fs1 & _ & _ & Hres & _).
  apply resolve_output_success_inv in Hres
    as (seg_file & seg_data & fs2 & Hsel & Hload & Hin & Hmk & Hcopy & _ & _).
  destruct (load_json_document _ _ _ Hload) as [mt Hdoc].
  exists seg_file, seg_data, mt, fs1, fs2.
  repeat (split; [assumption|]). split.
  - eapply copy2_exists. exact Hcopy.
  - intros Hnodir.
    destruct (copy2_content _ _ _ _ _ Hcopy Hnodir) as (mt' & data & Hsrc & Hdst).
    rewrite (mkdir_p_keeps _ _ _ _ _ _ Hmk Hdoc) in Hsrc.
    inversion Hsrc; subst. exact Hdst.
Qed.

Lemma success_writes_canonical_output_witness :
  let w := mkWorld Examples.fs_two_scenes [] in
  let w' := snd (process_scene Examples.segmentator_ok Examples.now
                               Examples.scene0 Examples.out Examples.bin
                               PyFloat.f0_005 20 w) in
  let canonical := ["out"; "scene0000_00_vh_clean_2.0.010000.segs.json"] in
  exists seg_file seg_data mt fs1 fs2,
    select_candidate PyFloat.f0_005
      (Fs.glob fs1 Examples.scene0 "scene0000_00_vh_clean_2.*.segs.json") fs1
    = inr seg_file /\
    Fs.lookup fs1 seg_file = Some (File mt (Document seg_data)) /\
    py_in "segIndices" seg_data = inr true /\
    Fs.mkdir_p Examples.now fs1 Examples.out = inr fs2 /\
    Fs.copy2 fs2 seg_file canonical = inr (fs w') /\
    Fs.exists_ (fs w') canonical = true /\
    (Fs.is_dir fs2 canonical = false ->
     Fs.lookup (fs w') canonical = Some (File mt (Document seg_data))).
Proof.
  intros w w' canonical.
  apply (success_writes_canonical_output
           Examples.segmentator_ok Examples.now Examples.scene0 Examples.out
           Examples.bin PyFloat.f0_005 20 w w' "scene0000_00" None).
  vm_compute. reflexivity.
Defined.

(** C6, at a document that has no [segIndices] field because it is not an
    object at all: a candidate holding the JSON array [["segIndices"]] passes
    the membership test, the task succeeds and the array is copied to the
    output directory. *)
Theorem array_document_passes_validation :
  let doc := JArr [JStr "segIndices"] in
  let w :=
    mkWorld (Examples.fs_with_candidate
               "scene0000_00_vh_clean_2.0.010000.segs.json" (Document doc))
            [] in
  let (r, w') :=
    process_scene Examples.segmentator_silent Examples.now Examples.scene0
                  Examples.out Examples.bin PyFloat.f0_01 20 w in
  has_field "segIndices" doc = false
  /\ r = (true, "scene0000_00", None)
  /\ Fs.lookup (fs w) ["out"; "scene0000_00_vh_clean_2.0.010000.segs.json"]
     = None
  /\ Fs.lookup (fs w') ["out"; "scene0000_00_vh_clean_2.0.010000.segs.json"]
     = Some (File 50 (Document doc)).
Proof. vm_compute. repeat split. Qed.

(** C6, at a scalar document: the membership test raises, so the failure is
    reported as "Unexpected error", not as an invalid format. *)
Lemma scalar_document_is_unexpected_error :
  let doc := JInt 5 in
  let w :=
    mkWorld (Examples.fs_with_candidate
               "scene0000_00_vh_clean_2.0.010000.segs.json" (Document doc))
            [] in
  has_field "segIndices" doc = false
  /\ fst (process_scene Examples.segmentator_silent Examples.now
                        Examples.scene0 Examples.out Examples.bin
                        PyFloat.f0_01 20 w)
     = (false, "scene0000_00",
        Some "Unexpected error: argument of type 'int' is not iterable").
Proof. vm_compute. split; reflexivity. Qed.

(** For a document that is an object, the validation is as the specification
    says: without the key [segIndices] the task fails with the invalid-format
    detail and the driver writes nothing. *)
Lemma object_without_field_is_invalid
      (segmentator : call -> FS -> proc_result) (now : Z)
      (scene_dir output_dir segmentator_bin : path)
      (kthresh : PyFloat.t) (seg_min_verts : Z) (w : World)
      (stderr : string) (fs1 : FS) (seg_file : path)
      (fields : list (string * json)) :
  let scene_name := Path.name scene_dir in
  let ply_file := scene_dir // (scene_name +++ "_vh_clean_2.ply") in
  let the_call :=
    Call segmentator_bin ply_file kthresh seg_min_verts scene_dir in
  let candidates :=
    Fs.glob fs1 scene_dir (scene_name +++ "_vh_clean_2.*.segs.json") in
  Fs.exists_ (fs w) ply_file = true ->
  segmentator the_call (fs w) = Exited 0 stderr fs1 ->
  candidates <> [] ->
  select_candidate kthresh candidates fs1 = inr seg_file ->
  Fs.load_json fs1 seg_file = inr (JObj fields) ->
  has_field "segIndices" (JObj fields) = false ->
  process_scene segmentator now scene_dir output_dir segmentator_bin kthresh
                seg_min_verts w
  = ((false, scene_name, Some "Invalid segs.json format: missing segIndices"),
     mkWorld fs1 (calls w ++ [the_call])).
Proof.
  intros scene_name ply_file the_call candidates Hply Hrun Hne Hsel Hload Hno.
  rewrite (scene_zero_exit _ _ _ _ _ _ _ _ _ _ Hply Hrun).
  unfold resolve_output. fold scene_name. fold candidates.
  destruct candidates as [|c cs] eqn:Hc; [congruence|].
  rewrite Hsel, Hload. unfold py_in. unfold has_field in Hno.
  now rewrite Hno.
Qed.

(** Counting, where [exists()] does not raise.  In the loops without the
    exception of line 42, whatever the number of workers, the completion
    order and the workers that die, the batch hands the aggregation exactly
    one outcome per dispatched task, carrying that task's scene name; the
    report is the tally of these outcomes, its two counters add up to the
    number of dispatched tasks and its ledger has one line per failure. *)
Theorem every_task_counted_once
        (segmentator : call -> FS -> proc_result) (now : Z) (pool : Pool)
        (args : Args) (segmentator_bin : path) (scene_dirs : list path)
        (w : World) :
  let rep :=
    fst (run_batch segmentator now pool args segmentator_bin scene_dirs w) in
  let outcomes :=
    outcomes_batch segmentator now pool args segmentator_bin scene_dirs w in
  rep = tally outcomes empty_report
  /\ Permutation (map r_scene outcomes) (map Path.name scene_dirs)
  /\ List.length outcomes = List.length scene_dirs
  /\ success_count rep + fail_count rep = List.length scene_dirs
  /\ List.length (failed_scenes rep) = fail_count rep.
Proof.
  intros rep outcomes.
  assert (Htally : rep = tally outcomes empty_report)
    by apply run_batch_tally.
  assert (Hperm : Permutation (map r_scene outcomes) (map Path.name scene_dirs))
    by apply outcomes_batch_scenes.
  assert (Hlen : List.length outcomes = List.length scene_dirs).
  { apply Permutation_length in Hperm. now rewrite !length_map in Hperm. }
  split; [exact Htally|]. split; [exact Hperm|]. split; [exact Hlen|].
  rewrite Htally. split.
  - rewrite tally_counts. simpl. exact Hlen.
  - apply tally_ledger. reflexivity.
Qed.

(** The same at the level of [main]: a run that passes the checks before the
    batch finishes with a report whose counters add up to the number of
    tasks it dispatched. *)
Lemma main_counts_every_task
      (segmentator : call -> FS -> proc_result) (script_dir : path) (now : Z)
      (pool : Pool) (args : Args) (w w1 : World) (scene_dirs : list path) :
  prepare script_dir now args w = (inr scene_dirs, w1) ->
  exists rep w2,
    main segmentator script_dir now pool args w = (Finished rep, w2)
    /\ success_count rep + fail_count rep = List.length scene_dirs.
Proof.
  intros Hprep. unfold main. rewrite Hprep.
  pose proof (batch_counts_add_up segmentator now pool args
                (resolve_binary script_dir args) scene_dirs w1) as Hcount.
  destruct (run_batch segmentator now pool args
                      (resolve_binary script_dir args) scene_dirs w1)
    as [rep w2].
  exists rep, w2. split; [reflexivity|exact Hcount].
Qed.






(** After a first run in which the only scene with a mesh was delivered, the
    second run calls nothing. *)
Example second_run_after_success_is_quiet :
  let w0 := mkWorld Examples.fs_two_scenes [] in
  let w1 := snd (main Examples.segmentator_ok Examples.script_dir Examples.now
                      Examples.pool_fifo (Examples.args 4 true) w0) in
  let w2 := snd (main Examples.segmentator_ok Examples.script_dir Examples.now
                      Examples.pool_fifo (Examples.args 4 true) w1) in
  List.length (calls w1) = 1 /\ calls w2 = calls w1.
Proof. vm_compute. split; reflexivity. Qed.


(** Worker counts, where [exists()] does not raise.  In the loops without
    the exception of line 42, for a duplicate-free list of tasks whose
    outcomes do not depend on which other tasks ran before and a pool in
    which no worker dies, the outcomes of the run with one worker are a
    permutation of those of the run with eight; the two reports have the
    same counters and the same ledger up to order. *)
Theorem worker_count_preserves_outcomes
        (segmentator : call -> FS -> proc_result) (now : Z) (pool : Pool)
        (args : Args) (segmentator_bin : path) (tasks : list path)
        (w : World) :
  NoDup tasks ->
  (forall d, fault pool d = None) ->
  order_independent segmentator now (output_dir args) segmentator_bin
                    (kthresh args) (seg_min_verts args) tasks w ->
  let one := with_workers 1 args in
  let eight := with_workers 8 args in
  let rep1 := fst (run_batch segmentator now pool one segmentator_bin tasks w) in
  let rep8 :=
    fst (run_batch segmentator now pool eight segmentator_bin tasks w) in
  Permutation
    (outcomes_batch segmentator now pool one segmentator_bin tasks w)
    (outcomes_batch segmentator now pool eight segmentator_bin tasks w)
  /\ success_count rep1 = success_count rep8
  /\ fail_count rep1 = fail_count rep8
  /\ Permutation (failed_scenes rep1) (failed_scenes rep8).
Proof.
  intros Hnodup Hfault Hindep one eight rep1 rep8.
  assert (Hperm :
            Permutation
              (outcomes_batch segmentator now pool one segmentator_bin tasks w)
              (outcomes_batch segmentator now pool eight segmentator_bin
                              tasks w)).
  { unfold outcomes_batch, one, eight, with_workers. cbn.
    rewrite (outcomes_completed_no_fault _ _ _ _ _ _ pool Hfault).
    pose proof (completion_perm pool tasks) as Hcomp.
    assert (Hseq := outcomes_sequential_fixed _ _ _ _ _ _ tasks w Hindep
                                              tasks []).
    assert (Hpar := outcomes_sequential_fixed _ _ _ _ _ _ tasks w Hindep
                                              (completion pool tasks) []).
    unfold after_tasks in Hseq, Hpar. cbn [fold_left app] in Hseq, Hpar.
    rewrite Hseq by (try exact Hnodup; apply incl_refl).
    rewrite Hpar.
    - apply Permutation_map. now apply Permutation_sym.
    - eapply Permutation_NoDup; [apply Permutation_sym|]; eassumption.
    - intros x Hx. eapply Permutation_in; eassumption. }
  split; [exact Hperm|].
  unfold rep1, rep8. rewrite !run_batch_tally.
  now apply tally_permutation.
Qed.

Lemma worker_count_preserves_outcomes_witness :
  let w := mkWorld Examples.fs_two_meshes [] in
  let tasks := [Examples.scene0; Examples.scene1] in
  let args := Examples.args 4 false in
  let one := with_workers 1 args in
  let eight := with_workers 8 args in
  let rep1 :=
    fst (run_batch Examples.segmentator_picky Examples.now Examples.pool_lifo
                   one Examples.bin tasks w) in
  let rep8 :=
    fst (run_batch Examples.segmentator_picky Examples.now Examples.pool_lifo
                   eight Examples.bin tasks w) in
  Permutation
    (outcomes_batch Examples.segmentator_picky Examples.now Examples.pool_lifo
                    one Examples.bin tasks w)
    (outcomes_batch Examples.segmentator_picky Examples.now Examples.pool_lifo
                    eight Examples.bin tasks w)
  /\ success_count rep1 = success_count rep8
  /\ fail_count rep1 = fail_count rep8
  /\ Permutation (failed_scenes rep1) (failed_scenes rep8).
Proof.
  intros w tasks args one eight rep1 rep8.
  apply (worker_count_preserves_outcomes
           Examples.segmentator_picky Examples.now Examples.pool_lifo args
           Examples.bin tasks w).
  - repeat constructor; simpl; intuition discriminate.
  - reflexivity.
  - intros d earlier Hd Hnodup Hincl Hnot.
    destruct (earlier_of_two Examples.scene0 Examples.scene1 d earlier
                             Hnodup Hincl Hnot) as [H0 H1].
    destruct Hd as [<-|[<-|[]]].
    + destruct (H0 eq_refl) as [->| ->]; vm_compute; reflexivity.
    + destruct (H1 eq_refl) as [->| ->]; vm_compute; reflexivity.
Defined.

(** The two runs of the witness hand over their outcomes in opposite orders:
    one scene is delivered, the other fails in the binary. *)
Example worker_count_changes_only_the_order :
  let w := mkWorld Examples.fs_two_meshes [] in
  let tasks := [Examples.scene0; Examples.scene1] in
  let args := Examples.args 4 false in
  outcomes_batch Examples.segmentator_picky Examples.now Examples.pool_lifo
                 (with_workers 1 args) Examples.bin tasks w
  = [ (true, "scene0000_00", None);
      (false, "scene0001_00", Some "Segmentator error: degenerate mesh") ]
  /\ outcomes_batch Examples.segmentator_picky Examples.now
                    Examples.pool_lifo (with_workers 8 args) Examples.bin
                    tasks w
     = [ (false, "scene0001_00", Some "Segmentator error: degenerate mesh");
         (true, "scene0000_00", None) ].
Proof. vm_compute. split; reflexivity. Qed.

(* ================================================================== *)
(** * Further properties of the driver *)

(** ** More on the file system *)

Lemma find_app_new (fs : FS) (p : path) (n : node) :
  Fs.find fs p = None -> Fs.find (fs ++ [(p, n)]) p = Some n.
Proof.
  induction fs as [|[q m] fs IH]; simpl.
  - now rewrite path_eqb_refl.
  - destruct (Path.eqb q p); [discriminate|exact IH].
Qed.

(** A successful [mkdir] leaves a directory at the path asked for. *)
Lemma mkdir_from_is_dir (now : Z) (todo : list string) :
  forall (fs fs' : FS) (done : path),
    todo <> [] ->
    Fs.mkdir_from now fs done todo = inr fs' ->
    exists mt, Fs.find fs' (done ++ todo) = Some (Dir mt).
Proof.
  induction todo as [|c rest IH]; intros fs fs' done Hne Hmk; [congruence|].
  simpl in Hmk. change (done ++ c :: rest) with (done ++ [c] ++ rest).
  rewrite app_assoc. fold (done // c).
  destruct (Fs.find fs (done // c)) as [[mt|mt data]|] eqn:E;
    [|discriminate|].
  - destruct rest as [|c' rest].
    + simpl in Hmk. inversion Hmk; subst. rewrite app_nil_r. eauto.
    + eapply IH; [discriminate|exact Hmk].
  - destruct rest as [|c' rest].
    + simpl in Hmk. inversion Hmk; subst. rewrite app_nil_r.
      exists now. now apply find_app_new.
    + eapply IH; [discriminate|exact Hmk].
Qed.

Lemma mkdir_p_is_dir (now : Z) (fs fs' : FS) (d : path) :
  Fs.mkdir_p now fs d = inr fs' -> Fs.is_dir fs' d = true.
Proof.
  unfold Fs.mkdir_p, Fs.is_dir, Fs.lookup. intros Hmk.
  destruct d as [|c rest]; [reflexivity|].
  destruct (mkdir_from_is_dir now (c :: rest) fs fs' [] ltac:(discriminate) Hmk)
    as [mt Hfind].
  simpl in Hfind. now rewrite Hfind.
Qed.

(** [mkdir] raises when a regular file is in the way. *)
Lemma mkdir_from_file_fails (now : Z) (todo : list string) :
  forall (fs : FS) (done : path) (mt : Z) (data : payload),
    todo <> [] ->
    Fs.find fs (done ++ todo) = Some (File mt data) ->
    exists e, Fs.mkdir_from now fs done todo = inl e.
Proof.
  induction todo as [|c rest IH]; intros fs done mt data Hne Hfile;
    [congruence|].
  simpl. change (done ++ c :: rest) with (done ++ [c] ++ rest) in Hfile.
  rewrite app_assoc in Hfile. fold (done // c) in Hfile.
  destruct rest as [|c' rest].
  - rewrite app_nil_r in Hfile. rewrite Hfile. eauto.
  - destruct (Fs.find fs (done // c)) as [[mt'|mt' data']|] eqn:E.
    + eapply IH; [discriminate|exact Hfile].
    + eauto.
    + eapply IH; [discriminate|]. apply find_app_some. exact Hfile.
Qed.

Lemma mkdir_p_file_fails (now : Z) (fs : FS) (d : path) :
  Fs.is_file fs d = true -> exists e, Fs.mkdir_p now fs d = inl e.
Proof.
  unfold Fs.is_file, Fs.lookup, Fs.mkdir_p.
  destruct d as [|c rest]; [discriminate|].
  destruct (Fs.find fs (c :: rest)) as [[mt|mt data]|] eqn:E;
    try discriminate.
  intros _. eapply (mkdir_from_file_fails now (c :: rest) fs []);
    [discriminate|exact E].
Qed.

(** What a successful [copy2] does: one write of the source's node, at the
    destination or under it. *)
Lemma copy2_inv (fs fs' : FS) (src dst : path) :
  Fs.copy2 fs src dst = inr fs' ->
  exists target mt data,
    (target = dst \/ target = dst // Path.name src)
    /\ Fs.lookup fs src = Some (File mt data)
    /\ fs' = Fs.write fs target (File mt data).
Proof.
  unfold Fs.copy2. cbv zeta.
  set (target := if Fs.is_dir fs dst then dst // Path.name src else dst).
  assert (Htarget : target = dst \/ target = dst // Path.name src)
    by (unfold target; destruct (Fs.is_dir fs dst); auto).
  clearbody target.
  destruct (Path.eqb src target); [discriminate|].
  destruct (Fs.lookup fs src) as [[mt|mt data]|]; try discriminate.
  intros H. exists target, mt, data. split; [exact Htarget|].
  split; [reflexivity|].
  destruct data; try discriminate;
    destruct (Fs.is_dir fs target); try discriminate;
    destruct (Fs.is_dir fs (Path.parent target)); try discriminate;
    now inversion H.
Qed.

Lemma lookup_write_other (fs : FS) (p q : path) (n : node) :
  p <> q -> Fs.lookup (Fs.write fs p n) q = Fs.lookup fs q.
Proof.
  intros Hpq. unfold Fs.lookup. destruct q; [reflexivity|].
  now apply find_write_other.
Qed.

Lemma join_longer (p : path) (n : string) (q : path) :
  List.length q <= List.length p -> p // n <> q.
Proof.
  intros Hlen Heq. subst q. unfold Path.join in Hlen.
  rewrite length_app in Hlen. simpl in Hlen. lia.
Qed.

Lemma children_parent (fs : FS) (d c : path) :
  In c (Fs.children fs d) -> Path.parent c = d.
Proof.
  unfold Fs.children. rewrite filter_In. intros [_ Hchild].
  destruct c as [|a c]; [discriminate|].
  unfold Path.is_child in Hchild. now apply path_eqb_eq in Hchild.
Qed.

(** ** More on the selection *)

(** The scan keeps the first of the candidates with the greatest time. *)
Lemma max_scan_first (fs : FS) (c : path) (rest : list path) :
  forall (older ties : list path) (best : path) (best_key : Z),
    Fs.st_mtime fs best = inr best_key ->
    (forall x t, In x older -> Fs.st_mtime fs x = inr t -> (t < best_key)%Z) ->
    (forall x t, In x ties -> Fs.st_mtime fs x = inr t -> (t <= best_key)%Z) ->
    max_scan fs best best_key rest = inr c ->
    exists before after latest,
      older ++ best :: ties ++ rest = before ++ c :: after
      /\ Fs.st_mtime fs c = inr latest
      /\ (forall x t, In x before -> Fs.st_mtime fs x = inr t ->
                      (t < latest)%Z)
      /\ (forall x t, In x after -> Fs.st_mtime fs x = inr t ->
                      (t <= latest)%Z).
Proof.
  induction rest as [|x rest IH];
    intros older ties best best_key Hbest Holder Hties Hscan; simpl in Hscan.
  - inversion Hscan; subst c. exists older, ties, best_key.
    rewrite app_nil_r. auto.
  - destruct (Fs.st_mtime fs x) as [e|kx] eqn:Hx; [discriminate|].
    destruct (best_key <? kx)%Z eqn:Hlt.
    + apply Z.ltb_lt in Hlt.
      destruct (IH (older ++ best :: ties) [] x kx Hx) as
        (before & after & latest & Hsplit & Hc & Hbefore & Hafter).
      * intros y t Hy Ht. apply in_app_or in Hy as [Hy|[<-|Hy]].
        -- specialize (Holder y t Hy Ht). lia.
        -- rewrite Hbest in Ht. inversion Ht; subst. exact Hlt.
        -- specialize (Hties y t Hy Ht). lia.
      * intros y t [].
      * exact Hscan.
      * exists before, after, latest. split; [|auto].
        rewrite <- Hsplit. rewrite <- !app_assoc. reflexivity.
    + apply Z.ltb_ge in Hlt.
      destruct (IH older (ties ++ [x]) best best_key Hbest Holder) as
        (before & after & latest & Hsplit & Hc & Hbefore & Hafter).
      * intros y t Hy Ht. apply in_app_or in Hy as [Hy|[<-|[]]].
        -- exact (Hties y t Hy Ht).
        -- rewrite Hx in Ht. inversion Ht; subst. exact Hlt.
      * exact Hscan.
      * exists before, after, latest. split; [|auto].
        rewrite <- Hsplit. rewrite <- !app_assoc. reflexivity.
Qed.

Lemma max_by_mtime_first (fs : FS) (candidates : list path) (c : path) :
  max_by_mtime candidates fs = inr c ->
  exists before after latest,
    candidates = before ++ c :: after
    /\ Fs.st_mtime fs c = inr latest
    /\ (forall x t, In x before -> Fs.st_mtime fs x = inr t -> (t < latest)%Z)
    /\ (forall x t, In x after -> Fs.st_mtime fs x = inr t -> (t <= latest)%Z).
Proof.
  destruct candidates as [|x rest]; simpl; [discriminate|].
  destruct (Fs.st_mtime fs x) as [e|kx] eqn:Hx; [discriminate|].
  intros Hscan.
  apply (max_scan_first fs c rest [] [] x kx Hx); auto.
  - intros y t [].
  - intros y t [].
Qed.


(** ** More on one task *)

Section SceneMore.

Variable segmentator : call -> FS -> proc_result.
Variable now : Z.
Variables scene_dir output_dir segmentator_bin : path.
Variable kthresh : PyFloat.t.
Variable seg_min_verts : Z.

Let scene_name := Path.name scene_dir.
Let ply_file := scene_dir // (scene_name +++ "_vh_clean_2.ply").
Let the_call := call_of scene_dir segmentator_bin kthresh seg_min_verts.
Let canonical := output_dir // output_filename scene_name.
Let run := process_scene segmentator now scene_dir output_dir
                         segmentator_bin kthresh seg_min_verts.

Lemma scene_zero_exit_world (w : World) (stderr : string) (fs1 : FS) :
  Fs.exists_ (fs w) ply_file = true ->
  segmentator the_call (fs w) = Exited 0 stderr fs1 ->
  snd (run w)
  = mkWorld (snd (resolve_output now scene_dir output_dir kthresh fs1))
            (calls w ++ [the_call]).
Proof.
  intros Hply Hrun. unfold run.
  rewrite (scene_zero_exit _ _ _ _ _ _ _ _ _ _ Hply Hrun).
  destruct (resolve_output now scene_dir output_dir kthresh fs1)
    as [[[code err|msg]|r] fs']; reflexivity.
Qed.

Lemma scene_calls_exact (w : World) :
  calls (snd (run w))
  = if Fs.exists_ (fs w) ply_file then calls w ++ [the_call] else calls w.
Proof.
  destruct (Fs.exists_ (fs w) ply_file) eqn:Hply.
  2:{ unfold run. now rewrite scene_missing_input by exact Hply. }
  destruct (segmentator the_call (fs w)) as [err|code stderr fs1] eqn:Hrun.
  { unfold run. now rewrite (scene_launch_failed _ _ _ _ _ _ _ _ _ Hply Hrun). }
  destruct (Z.eq_dec code 0) as [->|Hcode].
  2:{ unfold run.
      now rewrite (scene_nonzero_exit _ _ _ _ _ _ _ _ _ _ _ Hply Hrun Hcode). }
  now rewrite (scene_zero_exit_world _ _ _ Hply Hrun).
Qed.

Lemma resolve_output_detail (fs1 : FS) :
  match resolve_output now scene_dir output_dir kthresh fs1 with
  | (inr (true, _, detail), _) => detail = None
  | (inr (false, _, detail), _) =>
      exists msg, detail = Some msg /\ failure_detail scene_dir msg
  | (inl _, _) => True
  end.
Proof.
  unfold resolve_output, failure_detail.
  destruct (Fs.glob fs1 scene_dir _) as [|c cs].
  { eexists. split; [reflexivity|]. right. right. now left. }
  destruct (select_candidate kthresh (c :: cs) fs1) as [e|seg_file];
    [exact I|].
  destruct (Fs.load_json fs1 seg_file) as [e|seg_data]; [exact I|].
  destruct (py_in "segIndices" seg_data) as [e|[|]]; [exact I| |].
  - destruct (Fs.mkdir_p now fs1 output_dir) as [e|fs2]; [exact I|].
    destruct (Fs.copy2 fs2 seg_file _) as [e|fs3]; [exact I|reflexivity].
  - eexists. split; [reflexivity|]. do 3 right. now left.
Qed.

Lemma scene_outcome_detail (w : World) :
  let r := fst (run w) in
  (r_success r = true /\ r_detail r = None)
  \/ (r_success r = false
      /\ exists msg, r_detail r = Some msg /\ failure_detail scene_dir msg).
Proof.
  cbv zeta.
  destruct (Fs.exists_ (fs w) ply_file) eqn:Hply.
  2:{ unfold run. rewrite scene_missing_input by exact Hply. right.
      split; [reflexivity|]. eexists. split; [reflexivity|]. now left. }
  destruct (segmentator the_call (fs w)) as [err|code stderr fs1] eqn:Hrun.
  { unfold run. rewrite (scene_launch_failed _ _ _ _ _ _ _ _ _ Hply Hrun).
    right. split; [reflexivity|]. eexists. split; [reflexivity|].
    do 4 right. eauto. }
  destruct (Z.eq_dec code 0) as [->|Hcode].
  2:{ unfold run.
      rewrite (scene_nonzero_exit _ _ _ _ _ _ _ _ _ _ _ Hply Hrun Hcode).
      right. split; [reflexivity|]. eexists. split; [reflexivity|].
      right. left. eauto. }
  unfold run. rewrite (scene_zero_exit _ _ _ _ _ _ _ _ _ _ Hply Hrun).
  pose proof (resolve_output_detail fs1) as Hres.
  destruct (resolve_output now scene_dir output_dir kthresh fs1)
    as [[[code err|msg]|[[[|] nm] detail]] fs'].
  - right. split; [reflexivity|]. eexists. split; [reflexivity|].
    right. left. eauto.
  - right. split; [reflexivity|]. eexists. split; [reflexivity|].
    do 4 right. eauto.
  - left. now split.
  - right. split; [reflexivity|]. exact Hres.
Qed.

(** Whatever [resolve_output] does, a node elsewhere than at the delivered
    path stays as it was. *)
Lemma resolve_output_keeps (fs1 : FS) (p : path) (n : node) :
  Fs.lookup fs1 p = Some n ->
  p <> canonical ->
  (forall s, p <> canonical // s) ->
  Fs.lookup (snd (resolve_output now scene_dir output_dir kthresh fs1)) p
  = Some n.
Proof.
  intros Hp Hneq Hbelow. unfold resolve_output.
  destruct (Fs.glob fs1 scene_dir _) as [|c cs]; [exact Hp|].
  destruct (select_candidate kthresh (c :: cs) fs1) as [e|seg_file];
    [exact Hp|].
  destruct (Fs.load_json fs1 seg_file) as [e|seg_data]; [exact Hp|].
  destruct (py_in "segIndices" seg_data) as [e|[|]]; [exact Hp| |exact Hp].
  destruct (Fs.mkdir_p now fs1 output_dir) as [e|fs2] eqn:Hmk; [exact Hp|].
  pose proof (mkdir_p_keeps _ _ _ _ _ _ Hmk Hp) as Hp2.
  fold scene_name. fold canonical.
  destruct (Fs.copy2 fs2 seg_file canonical) as [e|fs3] eqn:Hcopy;
    [exact Hp2|].
  apply copy2_inv in Hcopy as (target & mt & data & Htarget & _ & ->).
  simpl. rewrite lookup_write_other; [exact Hp2|].
  destruct Htarget as [->| ->]; [congruence|].
  intros Heq. apply (Hbelow (Path.name seg_file)). now symmetry.
Qed.

End SceneMore.

(** ** More on the batch *)

Section BatchMore.

Variable segmentator : call -> FS -> proc_result.
Variable now : Z.
Variables output_dir segmentator_bin : path.
Variable kthresh : PyFloat.t.
Variable seg_min_verts : Z.

(** A property of every outcome a task can return, and of every outcome
    made for a dead worker, holds of all outcomes of a batch. *)
Lemma outcomes_sequential_all (P : path -> result -> Prop) :
  (forall d w, P d (fst (process_scene segmentator now d output_dir
                                       segmentator_bin kthresh seg_min_verts
                                       w))) ->
  forall scene_dirs w,
    Forall2 P scene_dirs
            (outcomes_sequential segmentator now output_dir segmentator_bin
                                 kthresh seg_min_verts scene_dirs w).
Proof.
  intros Hscene. induction scene_dirs as [|d rest IH]; intros w; simpl.
  - constructor.
  - pose proof (Hscene d w) as Hd.
    destruct (process_scene segmentator now d output_dir segmentator_bin
                            kthresh seg_min_verts w) as [r w1].
    constructor; [exact Hd|apply IH].
Qed.

Lemma outcomes_completed_all (pool : Pool) (P : path -> result -> Prop) :
  (forall d w, P d (fst (process_scene segmentator now d output_dir
                                       segmentator_bin kthresh seg_min_verts
                                       w))) ->
  (forall d msg, P d (false, Path.name d, Some msg)) ->
  forall completed w,
    Forall2 P completed
            (outcomes_completed segmentator now pool output_dir
                                segmentator_bin kthresh seg_min_verts
                                completed w).
Proof.
  intros Hscene Hfault. induction completed as [|d rest IH]; intros w; simpl.
  - constructor.
  - destruct (fault pool d) as [msg|].
    + constructor; [apply Hfault|apply IH].
    + pose proof (Hscene d w) as Hd.
      destruct (process_scene segmentator now d output_dir segmentator_bin
                              kthresh seg_min_verts w) as [r w1].
      constructor; [exact Hd|apply IH].
Qed.

End BatchMore.

Lemma forall2_right {A B} (P : A -> B -> Prop) (Q : B -> Prop)
      (l : list A) (l' : list B) :
  Forall2 P l l' -> (forall a b, In a l -> P a b -> Q b) -> Forall Q l'.
Proof.
  induction 1 as [|a b l l' Hab _ IH]; intros Himp; constructor.
  - apply (Himp a b); [now left|exact Hab].
  - apply IH. intros a' b' Ha'. apply Himp. now right.
Qed.

Lemma completion_nil (pool : Pool) : completion pool [] = [].
Proof.
  apply Permutation_nil. apply Permutation_sym. apply completion_perm.
Qed.

Lemma run_batch_nil
      (segmentator : call -> FS -> proc_result) (now : Z) (pool : Pool)
      (args : Args) (segmentator_bin : path) (w : World) :
  run_batch segmentator now pool args segmentator_bin [] w
  = (empty_report, w).
Proof.
  unfold run_batch. rewrite completion_nil.
  destruct (1 <? num_workers args)%Z; reflexivity.
Qed.

(** ** Delivered paths *)

Lemma string_length_append (s t : string) :
  String.length (s +++ t) = String.length s + String.length t.
Proof. induction s as [|c s IH]; simpl; [reflexivity|now rewrite IH]. Qed.

Lemma string_append_cancel_r (s1 s2 suffix : string) :
  s1 +++ suffix = s2 +++ suffix -> s1 = s2.
Proof.
  revert s2. induction s1 as [|c s1 IH]; intros [|c' s2] H; simpl in H.
  - reflexivity.
  - apply (f_equal String.length) in H. simpl in H.
    rewrite string_length_append in H. lia.
  - apply (f_equal String.length) in H. simpl in H.
    rewrite string_length_append in H. lia.
  - injection H as -> H. f_equal. now apply IH.
Qed.

Lemma output_filename_inj (n1 n2 : string) :
  output_filename n1 = output_filename n2 -> n1 = n2.
Proof. unfold output_filename. apply string_append_cancel_r. Qed.

Lemma path_parent_name (p : path) :
  p <> [] -> p = Path.parent p // Path.name p.
Proof.
  intros Hp. unfold Path.parent, Path.name, Path.join.
  now apply app_removelast_last.
Qed.

Lemma children_not_nil (fs : FS) (d c : path) :
  In c (Fs.children fs d) -> c <> [].
Proof.
  unfold Fs.children. rewrite filter_In. intros [_ Hchild] ->. discriminate.
Qed.


(** ** When [exists()] raises *)

Lemma subsequence_nil_l {A} (l : list A) : subsequence [] l.
Proof. induction l; constructor; assumption. Qed.

Section RaisingFacts.

Variable segmentator : call -> FS -> proc_result.
Variable now : Z.
Variable stat_error : stat_errors.
Variables output_dir segmentator_bin : path.
Variable kthresh : PyFloat.t.
Variable seg_min_verts : Z.

Let scene := process_scene segmentator now.
Let scene_or_raise := process_scene_or_raise segmentator now stat_error.

(** A task either raises, having done nothing, or is [process_scene]. *)
Lemma process_scene_or_raise_cases (d : path) (w : World) :
  (exists msg,
      stat_error (d // (Path.name d +++ "_vh_clean_2.ply")) = Some msg
      /\ scene_or_raise d output_dir segmentator_bin kthresh seg_min_verts w
         = (inl msg, w))
  \/ (exists r w',
         stat_error (d // (Path.name d +++ "_vh_clean_2.ply")) = None
         /\ scene d output_dir segmentator_bin kthresh seg_min_verts w
            = (r, w')
         /\ scene_or_raise d output_dir segmentator_bin kthresh seg_min_verts
                           w
            = (inr r, w')).
Proof.
  unfold scene_or_raise, scene, process_scene_or_raise, path_exists.
  destruct (stat_error _) as [msg|].
  - left. now exists msg.
  - right.
    destruct (process_scene segmentator now d output_dir segmentator_bin
                            kthresh seg_min_verts w) as [r w'].
    now exists r, w'.
Qed.

Lemma run_sequential_or_abort_calls (scene_dirs : list path) :
  forall rep w,
  exists ran,
    subsequence ran scene_dirs
    /\ calls (snd (run_sequential_or_abort segmentator now stat_error
                     output_dir segmentator_bin kthresh seg_min_verts
                     scene_dirs rep w))
       = calls w
         ++ map (fun d => call_of d segmentator_bin kthresh seg_min_verts)
                ran.
Proof.
  induction scene_dirs as [|d rest IH]; intros rep w; simpl.
  - exists []. split; [constructor|now rewrite app_nil_r].
  - destruct (process_scene_or_raise_cases d w)
      as [(msg & _ & Hraise)|(r & w1 & _ & Hscene & Hsame)];
      unfold scene_or_raise in *.
    + rewrite Hraise. exists []. split; [apply subsequence_nil_l|].
      simpl. now rewrite app_nil_r.
    + rewrite Hsame.
      pose proof (scene_calls_exact segmentator now d output_dir
                    segmentator_bin kthresh seg_min_verts w) as Hcalls.
      unfold scene in Hscene. rewrite Hscene in Hcalls. simpl in Hcalls.
      destruct (IH (record_result r rep) w1) as (ran & Hsub & Hrest).
      destruct (Fs.exists_ (fs w) _).
      * exists (d :: ran). split; [now constructor|].
        rewrite Hrest, Hcalls, <- app_assoc. reflexivity.
      * exists ran. split; [now constructor|]. now rewrite Hrest, Hcalls.
Qed.

(** Where [exists()] never raises, the two loops are those of the model
    without exceptions. *)
Hypothesis quiet : forall p, stat_error p = None.

Lemma run_sequential_or_abort_quiet (scene_dirs : list path) :
  forall rep w,
    run_sequential_or_abort segmentator now stat_error output_dir
                            segmentator_bin kthresh seg_min_verts
                            scene_dirs rep w
    = (inr (fst (run_sequential segmentator now output_dir segmentator_bin
                                kthresh seg_min_verts scene_dirs rep w)),
       snd (run_sequential segmentator now output_dir segmentator_bin
                           kthresh seg_min_verts scene_dirs rep w)).
Proof.
  induction scene_dirs as [|d rest IH]; intros rep w; simpl; [reflexivity|].
  unfold process_scene_or_raise, path_exists. rewrite quiet.
  destruct (process_scene segmentator now d output_dir segmentator_bin
                          kthresh seg_min_verts w) as [r w1].
  apply IH.
Qed.

Lemma run_completed_catching_quiet (pool : Pool) (completed : list path) :
  forall rep w,
    run_completed_catching segmentator now stat_error pool output_dir
                           segmentator_bin kthresh seg_min_verts
                           completed rep w
    = run_completed segmentator now pool output_dir segmentator_bin kthresh
                    seg_min_verts completed rep w.
Proof.
  induction completed as [|d rest IH]; intros rep w; simpl; [reflexivity|].
  destruct (fault pool d); [apply IH|].
  unfold process_scene_or_raise, path_exists. rewrite quiet.
  destruct (process_scene segmentator now d output_dir segmentator_bin
                          kthresh seg_min_verts w) as [r w1].
  apply IH.
Qed.

End RaisingFacts.

(** The pool loop counts every task, whatever raises. *)
Lemma run_completed_catching_counts
      (segmentator : call -> FS -> proc_result) (now : Z)
      (stat_error : stat_errors) (pool : Pool)
      (output_dir segmentator_bin : path) (kthresh : PyFloat.t)
      (seg_min_verts : Z) (completed : list path) :
  forall rep w,
    let rep' :=
      fst (run_completed_catching segmentator now stat_error pool output_dir
                                  segmentator_bin kthresh seg_min_verts
                                  completed rep w) in
    success_count rep' + fail_count rep'
    = success_count rep + fail_count rep + List.length completed.
Proof.
  induction completed as [|d rest IH]; intros rep w; simpl; [lia|].
  destruct (fault pool d) as [msg|].
  - rewrite IH. simpl. lia.
  - destruct (process_scene_or_raise segmentator now stat_error d output_dir
                                     segmentator_bin kthresh seg_min_verts w)
      as [[msg|[[ok nm] detail]] w1].
    + rewrite IH. simpl. lia.
    + rewrite IH. destruct ok; simpl; lia.
Qed.

(** ** What the [try] body can raise, and what a failure has written *)

Lemma max_scan_raises (fs : FS) (rest : list path) :
  forall best best_key e,
    max_scan fs best best_key rest = inl e -> exists msg, e = Exception msg.
Proof.
  induction rest as [|c rest IH]; intros best best_key e; simpl;
    [discriminate|].
  unfold Fs.st_mtime at 1.
  destruct (Fs.lookup fs c) as [[mt|mt data]|].
  - destruct (best_key <? mt)%Z; apply IH.
  - destruct (best_key <? mt)%Z; apply IH.
  - intros H. inversion H. eauto.
Qed.

Lemma select_candidate_raises (kthresh : PyFloat.t) (candidates : list path)
      (fs : FS) (e : exn) :
  select_candidate kthresh candidates fs = inl e -> exists msg, e = Exception msg.
Proof.
  unfold select_candidate. destruct (filter _ candidates); [|discriminate].
  unfold max_by_mtime. destruct candidates as [|c rest].
  - intros H. inversion H. eauto.
  - unfold Fs.st_mtime at 1.
    destruct (Fs.lookup fs c) as [[mt|mt data]|].
    + apply max_scan_raises.
    + apply max_scan_raises.
    + intros H. inversion H. eauto.
Qed.

Lemma mkdir_from_raises (now : Z) (todo : list string) :
  forall fs done e,
    Fs.mkdir_from now fs done todo = inl e -> exists msg, e = Exception msg.
Proof.
  induction todo as [|c rest IH]; intros fs done e; simpl; [discriminate|].
  destruct (Fs.find fs (done // c)) as [[mt|mt data]|].
  - apply IH.
  - intros H. inversion H. eauto.
  - apply IH.
Qed.

Lemma copy2_raises (fs : FS) (src dst : path) (e : exn) :
  Fs.copy2 fs src dst = inl e -> exists msg, e = Exception msg.
Proof.
  unfold Fs.copy2. cbv zeta.
  destruct (Path.eqb src _); [intros H; inversion H; eauto|].
  destruct (Fs.lookup fs src) as [[mt|mt [err|err|doc]]|];
    try (intros H; inversion H; eauto; fail).
  all: destruct (Fs.is_dir fs _); [intros H; inversion H; eauto|].
  all: destruct (Fs.is_dir fs _); [discriminate|intros H; inversion H; eauto].
Qed.

(** [resolve_output] raises nothing but plain exceptions, and when it
    returns a failure it has written nothing. *)
Lemma resolve_output_failure_cases (now : Z) (scene_dir output_dir : path)
      (kthresh : PyFloat.t) (fs1 : FS) :
  match resolve_output now scene_dir output_dir kthresh fs1 with
  | (inl e, _) => exists msg, e = Exception msg
  | (inr (false, _, _), fs') => fs' = fs1
  | (inr (true, _, _), _) => True
  end.
Proof.
  unfold resolve_output.
  destruct (Fs.glob fs1 scene_dir _) as [|c cs]; [reflexivity|].
  destruct (select_candidate kthresh (c :: cs) fs1) as [e|seg_file] eqn:Hsel;
    [now apply select_candidate_raises in Hsel|].
  unfold Fs.load_json.
  destruct (Fs.lookup fs1 seg_file) as [[mt|mt [err|err|doc]]|]; eauto.
  destruct doc; simpl; eauto.
  - destruct (Str.contains _ _); [|reflexivity].
    destruct (Fs.mkdir_p now fs1 output_dir) as [e|fs2] eqn:Hmk;
      [now apply mkdir_from_raises in Hmk|].
    destruct (Fs.copy2 fs2 seg_file _) as [e|fs3] eqn:Hcopy;
      [now apply copy2_raises in Hcopy|exact I].
  - destruct (existsb _ items); [|reflexivity].
    destruct (Fs.mkdir_p now fs1 output_dir) as [e|fs2] eqn:Hmk;
      [now apply mkdir_from_raises in Hmk|].
    destruct (Fs.copy2 fs2 seg_file _) as [e|fs3] eqn:Hcopy;
      [now apply copy2_raises in Hcopy|exact I].
  - destruct (existsb _ fields); [|reflexivity].
    destruct (Fs.mkdir_p now fs1 output_dir) as [e|fs2] eqn:Hmk;
      [now apply mkdir_from_raises in Hmk|].
    destruct (Fs.copy2 fs2 seg_file _) as [e|fs3] eqn:Hcopy;
      [now apply copy2_raises in Hcopy|exact I].
Qed.

(* ================================================================== *)
(** * Further properties, by function *)

(** ** [process_scene] *)

(** X1. A run that ends with a non-zero exit status fails the task with the
    binary's error stream as detail, whatever candidates the scene directory
    holds; the driver itself writes nothing. *)
Theorem nonzero_exit_never_delivers
        (segmentator : call -> FS -> proc_result) (now : Z)
        (scene_dir output_dir segmentator_bin : path)
        (kthresh : PyFloat.t) (seg_min_verts : Z) (w : World)
        (code : Z) (stderr : string) (fs1 : FS) :
  let scene_name := Path.name scene_dir in
  let ply_file := scene_dir // (scene_name +++ "_vh_clean_2.ply") in
  let the_call := call_of scene_dir segmentator_bin kthresh seg_min_verts in
  Fs.exists_ (fs w) ply_file = true ->
  segmentator the_call (fs w) = Exited code stderr fs1 ->
  code <> 0%Z ->
  process_scene segmentator now scene_dir output_dir segmentator_bin kthresh
                seg_min_verts w
  = ((false, scene_name, Some ("Segmentator error: " +++ stderr)),
     mkWorld fs1 (calls w ++ [the_call])).
Proof.
  intros scene_name ply_file the_call Hply Hrun Hcode.
  exact (scene_nonzero_exit _ _ _ _ _ _ _ _ _ _ _ Hply Hrun Hcode).
Qed.

Lemma nonzero_exit_never_delivers_witness :
  let w := mkWorld Worlds.fs_stale [] in
  process_scene Examples.segmentator_exit1 Examples.now Examples.scene0
                Examples.out Examples.bin PyFloat.f0_01 20 w
  = ((false, "scene0000_00", Some "Segmentator error: cannot read mesh"),
     mkWorld Worlds.fs_stale
             [call_of Examples.scene0 Examples.bin PyFloat.f0_01 20]).
Proof.
  intros w.
  apply (nonzero_exit_never_delivers
           Examples.segmentator_exit1 Examples.now Examples.scene0
           Examples.out Examples.bin PyFloat.f0_01 20 w 1 "cannot read mesh"
           Worlds.fs_stale).
  - reflexivity.
  - reflexivity.
  - discriminate.
Defined.

(** X2. A task calls the binary exactly once when its mesh exists and not at
    all otherwise; the call carries the binary, the mesh, the threshold and
    the vertex bound, and runs in the scene directory.  Nothing is retried. *)
Theorem task_calls_binary_once_iff_mesh
        (segmentator : call -> FS -> proc_result) (now : Z)
        (scene_dir output_dir segmentator_bin : path)
        (kthresh : PyFloat.t) (seg_min_verts : Z) (w : World) :
  let ply_file := scene_dir // (Path.name scene_dir +++ "_vh_clean_2.ply") in
  calls (snd (process_scene segmentator now scene_dir output_dir
                            segmentator_bin kthresh seg_min_verts w))
  = if Fs.exists_ (fs w) ply_file
    then calls w ++ [Call segmentator_bin ply_file kthresh seg_min_verts
                          scene_dir]
    else calls w.
Proof. intros ply_file. apply scene_calls_exact. Qed.

(** X3. What a task returns is always labelled with the name of its scene
    directory; a success carries no detail, and a failure carries one of the
    five details the function can build. *)
Theorem outcome_is_success_or_known_failure
        (segmentator : call -> FS -> proc_result) (now : Z)
        (scene_dir output_dir segmentator_bin : path)
        (kthresh : PyFloat.t) (seg_min_verts : Z) (w : World) :
  let r := fst (process_scene segmentator now scene_dir output_dir
                              segmentator_bin kthresh seg_min_verts w) in
  r_scene r = Path.name scene_dir
  /\ ((r_success r = true /\ r_detail r = None)
      \/ (r_success r = false
          /\ exists msg, r_detail r = Some msg
                         /\ failure_detail scene_dir msg)).
Proof.
  intros r. split.
  - apply scene_result_scene.
  - apply scene_outcome_detail.
Qed.



(** X5. When no candidate carries the printed threshold, the candidate
    selected is the first, in the order of the glob, among those with the
    greatest modification time: everything before it is strictly older,
    nothing after it is newer. *)
Theorem fallback_keeps_first_of_latest
        (kthresh : PyFloat.t) (candidates : list path) (fs : FS)
        (seg_file : path) :
  (forall c, In c candidates ->
             Str.contains (PyFloat.format_6f kthresh) (Path.name c) = false) ->
  select_candidate kthresh candidates fs = inr seg_file ->
  exists before after latest,
    candidates = before ++ seg_file :: after
    /\ Fs.st_mtime fs seg_file = inr latest
    /\ (forall c t, In c before -> Fs.st_mtime fs c = inr t -> (t < latest)%Z)
    /\ (forall c t, In c after -> Fs.st_mtime fs c = inr t -> (t <= latest)%Z).
Proof.
  intros Hnone Hsel. unfold select_candidate in Hsel.
  rewrite (filter_none _ candidates Hnone) in Hsel.
  now apply max_by_mtime_first.
Qed.

Lemma fallback_keeps_first_of_latest_witness :
  let a := ["s"; "s_vh_clean_2.0.250000.segs.json"] in
  let b := ["s"; "s_vh_clean_2.0.500000.segs.json"] in
  let c := ["s"; "s_vh_clean_2.0.750000.segs.json"] in
  let fs : FS := [ (a, File 10 (Document Examples.seg_doc));
                   (b, File 30 (Document Examples.seg_doc));
                   (c, File 30 (Document Examples.seg_doc)) ] in
  exists before after latest,
    [a; b; c] = before ++ b :: after
    /\ Fs.st_mtime fs b = inr latest
    /\ (forall x t, In x before -> Fs.st_mtime fs x = inr t -> (t < latest)%Z)
    /\ (forall x t, In x after -> Fs.st_mtime fs x = inr t -> (t <= latest)%Z).
Proof.
  intros a b c fs.
  apply (fallback_keeps_first_of_latest PyFloat.f0_01 [a; b; c] fs b).
  - intros x [<-|[<-|[<-|[]]]]; vm_compute; reflexivity.
  - vm_compute. reflexivity.
Defined.

(** X6. Once the binary has run, the driver changes no file but the
    delivered one: a regular file that the binary left anywhere else than at
    the delivered path or below it (the mesh, the candidates, the files of
    other scenes, other delivered files) is still there with its content and
    modification time when the task returns, whether the task succeeds or
    fails; in particular the selected candidate is copied, never moved. *)
Theorem driver_keeps_other_files
        (segmentator : call -> FS -> proc_result) (now : Z)
        (scene_dir output_dir segmentator_bin : path)
        (kthresh : PyFloat.t) (seg_min_verts : Z) (w : World)
        (code : Z) (stderr : string) (fs1 : FS) (p : path)
        (mt : Z) (data : payload) :
  let scene_name := Path.name scene_dir in
  let ply_file := scene_dir // (scene_name +++ "_vh_clean_2.ply") in
  let canonical := output_dir // output_filename scene_name in
  Fs.exists_ (fs w) ply_file = true ->
  segmentator (call_of scene_dir segmentator_bin kthresh seg_min_verts) (fs w)
  = Exited code stderr fs1 ->
  Fs.lookup fs1 p = Some (File mt data) ->
  p <> canonical ->
  (forall s, p <> canonical // s) ->
  Fs.lookup (fs (snd (process_scene segmentator now scene_dir output_dir
                                    segmentator_bin kthresh seg_min_verts w)))
            p
  = Some (File mt data).
Proof.
  intros scene_name ply_file canonical Hply Hrun Hp Hneq Hbelow.
  destruct (Z.eq_dec code 0) as [->|Hcode].
  - rewrite (scene_zero_exit_world _ _ _ _ _ _ _ _ _ _ Hply Hrun).
    now apply resolve_output_keeps.
  - now rewrite (scene_nonzero_exit _ _ _ _ _ _ _ _ _ _ _ Hply Hrun Hcode).
Qed.

Lemma driver_keeps_other_files_witness :
  let w := mkWorld Worlds.fs_stale [] in
  let seg_file := Examples.scene0 // "scene0000_00_vh_clean_2.0.010000.segs.json" in
  let (r, w') :=
    process_scene Examples.segmentator_silent Examples.now Examples.scene0
                  Examples.out Examples.bin PyFloat.f0_01 20 w in
  r_success r = true
  /\ Fs.lookup (fs w') seg_file = Some (File 50 (Document Examples.seg_doc)).
Proof.
  intros w seg_file. split; [reflexivity|].
  apply (driver_keeps_other_files
           Examples.segmentator_silent Examples.now Examples.scene0
           Examples.out Examples.bin PyFloat.f0_01 20 w 0 "" Worlds.fs_stale
           seg_file 50 (Document Examples.seg_doc)).
  - reflexivity.
  - reflexivity.
  - reflexivity.
  - discriminate.
  - intros s H. vm_compute in H. discriminate H.
Defined.

(** X7. After a task that succeeds, the output directory is a directory: the
    task creates it, with its parents, when it is missing. *)
Theorem success_leaves_output_directory
        (segmentator : call -> FS -> proc_result) (now : Z)
        (scene_dir output_dir segmentator_bin : path)
        (kthresh : PyFloat.t) (seg_min_verts : Z) (w w' : World)
        (nm : string) (detail : option string) :
  process_scene segmentator now scene_dir output_dir segmentator_bin kthresh
                seg_min_verts w = ((true, nm, detail), w') ->
  Fs.is_dir (fs w') output_dir = true.
Proof.
  intros H.
  apply scene_success_inv in H as (stderr & fs1 & _ & _ & Hres & _).
  apply resolve_output_success_inv in Hres
    as (seg_file & seg_data & fs2 & _ & _ & _ & Hmk & Hcopy & _ & _).
  apply mkdir_p_is_dir in Hmk.
  apply copy2_inv in Hcopy as (target & mt & data & Htarget & _ & Hfs).
  rewrite Hfs. unfold Fs.is_dir in *.
  rewrite lookup_write_other; [exact Hmk|].
  destruct Htarget as [->| ->].
  - now apply join_longer.
  - apply join_longer. unfold Path.join. rewrite length_app. simpl. lia.
Qed.

Lemma success_leaves_output_directory_witness :
  let w := mkWorld Examples.fs_two_scenes [] in
  Fs.is_dir (fs w) ["deep"; "out"] = false
  /\ Fs.is_dir
       (fs (snd (process_scene Examples.segmentator_ok Examples.now
                               Examples.scene0 ["deep"; "out"] Examples.bin
                               PyFloat.f0_01 20 w)))
       ["deep"; "out"] = true.
Proof.
  intros w. split; [reflexivity|].
  apply (success_leaves_output_directory
           Examples.segmentator_ok Examples.now Examples.scene0
           ["deep"; "out"] Examples.bin PyFloat.f0_01 20 w
           (snd (process_scene Examples.segmentator_ok Examples.now
                               Examples.scene0 ["deep"; "out"] Examples.bin
                               PyFloat.f0_01 20 w))
           "scene0000_00" None).
  vm_compute. reflexivity.
Defined.

(** ** [main] *)


(** X9. Nothing to do is not an error: with [skip_existing], when scene
    directories are found and every one of them has its delivered file,
    [main] does not exit with status 1 but ends with the empty summary, and
    calls nothing. *)
Theorem all_delivered_finishes_empty
        (segmentator : call -> FS -> proc_result) (script_dir : path)
        (now : Z) (pool : Pool) (args : Args) (w : World) (fs1 : FS)
        (scene_dirs : list path) :
  skip_existing args = true ->
  Fs.exists_ (fs w) (input_dir args) = true ->
  Fs.is_file (fs w) (resolve_binary script_dir args) = true ->
  Fs.mkdir_p now (fs w) (output_dir args) = inr fs1 ->
  discover fs1 (input_dir args) = inr scene_dirs ->
  scene_dirs <> [] ->
  (forall d, In d scene_dirs ->
             Fs.exists_ (fs w)
               (output_dir args // output_filename (Path.name d)) = true) ->
  main segmentator script_dir now pool args w
  = (Finished empty_report, mkWorld fs1 (calls w)).
Proof.
  intros Hskip Hin Hbin Hmk Hdisc Hne Hall.
  assert (Hexists : Fs.exists_ (fs w) (resolve_binary script_dir args) = true).
  { unfold Fs.exists_. unfold Fs.is_file in Hbin.
    destruct (Fs.lookup (fs w) (resolve_binary script_dir args));
      [reflexivity|discriminate]. }
  assert (Hnone : remaining_scenes fs1 (output_dir args) scene_dirs = []).
  { unfold remaining_scenes. apply filter_none. intros d Hd.
    rewrite (mkdir_p_entry _ _ _ _ _ Hmk). now rewrite (Hall d Hd). }
  unfold main, prepare. rewrite Hin, Hexists, Hbin, Hmk, Hdisc, Hskip.
  cbn [negb].
  destruct scene_dirs as [|d ds]; [congruence|].
  rewrite Hnone. now rewrite run_batch_nil.
Qed.

Lemma all_delivered_finishes_empty_witness :
  let first :=
    main Examples.segmentator_ok Examples.script_dir Examples.now
         Examples.pool_fifo (Examples.args 4 true)
         (mkWorld Examples.fs_two_meshes []) in
  let w1 := snd first in
  fst first = Finished (mkReport 2 0 [])
  /\ main Examples.segmentator_ok Examples.script_dir Examples.now
          Examples.pool_lifo (Examples.args 4 true) w1
     = (Finished empty_report, mkWorld (fs w1) (calls w1)).
Proof.
  intros first w1. split; [vm_compute; reflexivity|].
  apply (all_delivered_finishes_empty
           Examples.segmentator_ok Examples.script_dir Examples.now
           Examples.pool_lifo (Examples.args 4 true) w1 (fs w1)
           [Examples.scene0; Examples.scene1]).
  - reflexivity.
  - vm_compute. reflexivity.
  - vm_compute. reflexivity.
  - vm_compute. reflexivity.
  - vm_compute. reflexivity.
  - discriminate.
  - intros d [<-|[<-|[]]]; vm_compute; reflexivity.
Defined.

(** X10. Every task [main] dispatches is an entry of the input directory
    that is a directory and whose name starts with "scene"; without
    [skip_existing] there is at least one. *)
Theorem dispatched_are_scene_directories
        (script_dir : path) (now : Z) (args : Args) (w w1 : World)
        (scene_dirs : list path) :
  prepare script_dir now args w = (inr scene_dirs, w1) ->
  Forall (fun d => Path.parent d = input_dir args
                   /\ Fs.is_dir (fs w1) d = true
                   /\ Str.startswith "scene" (Path.name d) = true)
         scene_dirs
  /\ (skip_existing args = false -> scene_dirs <> []).
Proof.
  unfold prepare.
  destruct (negb (Fs.exists_ (fs w) (input_dir args))); [discriminate|].
  destruct (negb (Fs.exists_ (fs w) (resolve_binary script_dir args)));
    [discriminate|].
  destruct (negb (Fs.is_file (fs w) (resolve_binary script_dir args)));
    [discriminate|].
  destruct (Fs.mkdir_p now (fs w) (output_dir args)) as [e|fs1];
    [discriminate|].
  destruct (discover fs1 (input_dir args)) as [e|found] eqn:Hdisc;
    [discriminate|].
  assert (Hfound :
            forall d, In d found ->
                      Path.parent d = input_dir args
                      /\ Fs.is_dir fs1 d = true
                      /\ Str.startswith "scene" (Path.name d) = true).
  { unfold discover, Fs.iterdir in Hdisc.
    destruct (Fs.lookup fs1 (input_dir args)) as [[mt|mt data]|];
      try discriminate.
    injection Hdisc as <-. intros d Hd.
    apply filter_In in Hd as [Hchild Hkeep].
    apply andb_true_iff in Hkeep as [Hdir Hname].
    split; [now apply children_parent with fs1|]. now split. }
  destruct found as [|d0 ds]; [discriminate|].
  set (found := d0 :: ds) in *.
  assert (Hne : found <> []) by discriminate. clearbody found.
  destruct (skip_existing args); intros H; injection H as <- <-; split.
  - apply Forall_forall. intros d Hd. apply Hfound.
    unfold remaining_scenes in Hd. now apply filter_In in Hd as [Hd _].
  - discriminate.
  - apply Forall_forall. exact Hfound.
  - intros _. exact Hne.
Qed.

Lemma dispatched_are_scene_directories_witness :
  let w := mkWorld Examples.fs_two_scenes [] in
  let w1 := snd (prepare Examples.script_dir Examples.now
                         (Examples.args 1 false) w) in
  Forall (fun d => Path.parent d = ["data"]
                   /\ Fs.is_dir (fs w1) d = true
                   /\ Str.startswith "scene" (Path.name d) = true)
         [Examples.scene0; Examples.scene1]
  /\ (false = false -> [Examples.scene0; Examples.scene1] <> []).
Proof.
  intros w w1.
  apply (dispatched_are_scene_directories
           Examples.script_dir Examples.now (Examples.args 1 false) w w1
           [Examples.scene0; Examples.scene1]).
  vm_compute. reflexivity.
Defined.

(** X11. When the output path is taken by a regular file, creating the output
    directory raises before any scene is looked for: [main] ends with an
    exception nobody catches and leaves the world as it was. *)
Theorem output_path_taken_by_file_is_uncaught
        (segmentator : call -> FS -> proc_result) (script_dir : path)
        (now : Z) (pool : Pool) (args : Args) (w : World) :
  Fs.exists_ (fs w) (input_dir args) = true ->
  Fs.is_file (fs w) (resolve_binary script_dir args) = true ->
  Fs.is_file (fs w) (output_dir args) = true ->
  exists e, main segmentator script_dir now pool args w = (Uncaught e, w).
Proof.
  intros Hin Hbin Hout.
  assert (Hexists : Fs.exists_ (fs w) (resolve_binary script_dir args) = true).
  { unfold Fs.exists_. unfold Fs.is_file in Hbin.
    destruct (Fs.lookup (fs w) (resolve_binary script_dir args));
      [reflexivity|discriminate]. }
  destruct (mkdir_p_file_fails now _ _ Hout) as [e He].
  exists e. unfold main, prepare. now rewrite Hin, Hexists, Hbin, He.
Qed.

Lemma output_path_taken_by_file_is_uncaught_witness :
  let w := mkWorld Worlds.fs_output_is_file [] in
  exists e,
    main Examples.segmentator_ok Examples.script_dir Examples.now
         Examples.pool_fifo (Examples.args 4 false) w = (Uncaught e, w).
Proof.
  intros w.
  apply (output_path_taken_by_file_is_uncaught
           Examples.segmentator_ok Examples.script_dir Examples.now
           Examples.pool_fifo (Examples.args 4 false) w); reflexivity.
Defined.

(** X12. The input path is only checked for existence: when it names a
    regular file, [main] passes the checks, creates the output directory and
    then ends on the error of listing a file, which nobody catches. *)
Theorem input_path_naming_file_is_uncaught
        (segmentator : call -> FS -> proc_result) (script_dir : path)
        (now : Z) (pool : Pool) (args : Args) (w : World) (fs1 : FS) :
  Fs.is_file (fs w) (input_dir args) = true ->
  Fs.is_file (fs w) (resolve_binary script_dir args) = true ->
  Fs.mkdir_p now (fs w) (output_dir args) = inr fs1 ->
  main segmentator script_dir now pool args w
  = (Uncaught (Exception ("[Errno 20] Not a directory: '"
                            +++ Path.str (input_dir args) +++ "'")),
     mkWorld fs1 (calls w))
  /\ Fs.is_dir fs1 (output_dir args) = true.
Proof.
  intros Hin Hbin Hmk.
  assert (Hfile : forall p, Fs.is_file (fs w) p = true ->
                            exists mt data,
                              Fs.lookup (fs w) p = Some (File mt data)).
  { intros p Hp. unfold Fs.is_file in Hp.
    destruct (Fs.lookup (fs w) p) as [[mt|mt data]|]; try discriminate.
    eauto. }
  destruct (Hfile _ Hin) as (mt & data & Hlook).
  destruct (Hfile _ Hbin) as (mtb & datab & Hlookb).
  split; [|now apply mkdir_p_is_dir with now (fs w)].
  unfold main, prepare, Fs.exists_. rewrite Hlook, Hlookb, Hbin, Hmk.
  cbn [negb]. unfold discover, Fs.iterdir.
  now rewrite (mkdir_p_keeps _ _ _ _ _ _ Hmk Hlook).
Qed.

Lemma input_path_naming_file_is_uncaught_witness :
  let w := mkWorld Examples.fs_two_scenes [] in
  let fs1 := Examples.fs_two_scenes ++ [ (Examples.out, Dir Examples.now) ] in
  main Examples.segmentator_ok Examples.script_dir Examples.now
       Examples.pool_fifo Worlds.args_input_is_file w
  = (Uncaught (Exception "[Errno 20] Not a directory: 'data/notes.txt'"),
     mkWorld fs1 [])
  /\ Fs.is_dir fs1 Examples.out = true.
Proof.
  intros w fs1.
  apply (input_path_naming_file_is_uncaught
           Examples.segmentator_ok Examples.script_dir Examples.now
           Examples.pool_fifo Worlds.args_input_is_file w fs1); reflexivity.
Defined.

(** X13. In the sequential loop the binary is called at most once per task
    and in the order of the tasks: the calls the loop adds are the command
    lines of a subsequence of the task list, one each, also when the loop is
    ended by an exception of [exists()]. *)
Theorem sequential_calls_follow_the_tasks
        (segmentator : call -> FS -> proc_result) (now : Z)
        (stat_error : stat_errors) (output_dir segmentator_bin : path)
        (kthresh : PyFloat.t) (seg_min_verts : Z) (scene_dirs : list path)
        (rep : Report) (w : World) :
  exists ran,
    subsequence ran scene_dirs
    /\ calls (snd (run_sequential_or_abort segmentator now stat_error
                     output_dir segmentator_bin kthresh seg_min_verts
                     scene_dirs rep w))
       = calls w
         ++ map (fun d => call_of d segmentator_bin kthresh seg_min_verts)
                ran.
Proof. apply run_sequential_or_abort_calls. Qed.

(** X14. With at most one worker (also with none, or a negative number) the
    tasks run in the order of the listing: the outcomes come in that order,
    and the ledger lists the failed ones in that order, each with its
    detail. *)
Theorem sequential_run_keeps_listing_order
        (segmentator : call -> FS -> proc_result) (now : Z) (pool : Pool)
        (args : Args) (segmentator_bin : path) (scene_dirs : list path)
        (w : World) :
  (num_workers args <= 1)%Z ->
  let rep :=
    fst (run_batch segmentator now pool args segmentator_bin scene_dirs w) in
  let outcomes :=
    outcomes_batch segmentator now pool args segmentator_bin scene_dirs w in
  map r_scene outcomes = map Path.name scene_dirs
  /\ failed_scenes rep = map ledger_line (filter failed outcomes)
  /\ success_count rep = List.length (filter r_success outcomes)
  /\ fail_count rep = List.length (filter failed outcomes).
Proof.
  intros Hworkers rep outcomes.
  assert (Hseq : (1 <? num_workers args)%Z = false)
    by (apply Z.ltb_ge; exact Hworkers).
  split.
  - unfold outcomes, outcomes_batch. rewrite Hseq.
    apply outcomes_sequential_scenes.
  - unfold rep. rewrite run_batch_tally, tally_closed_form. fold outcomes.
    simpl. auto.
Qed.

Lemma sequential_run_keeps_listing_order_witness :
  let w := mkWorld Examples.fs_two_meshes [] in
  let args := Examples.args 0 false in
  let tasks := [Examples.scene1; Examples.scene0] in
  let rep :=
    fst (run_batch Examples.segmentator_exit1 Examples.now Examples.pool_lifo
                   args Examples.bin tasks w) in
  let outcomes :=
    outcomes_batch Examples.segmentator_exit1 Examples.now Examples.pool_lifo
                   args Examples.bin tasks w in
  map r_scene outcomes = ["scene0001_00"; "scene0000_00"]
  /\ failed_scenes rep = map ledger_line (filter failed outcomes)
  /\ success_count rep = List.length (filter r_success outcomes)
  /\ fail_count rep = List.length (filter failed outcomes).
Proof.
  intros w args tasks rep outcomes.
  apply (sequential_run_keeps_listing_order
           Examples.segmentator_exit1 Examples.now Examples.pool_lifo args
           Examples.bin tasks w).
  vm_compute. discriminate.
Defined.

(** X15. Every line of the ledger names a dispatched scene and carries a
    message: no failure is listed without its detail, also when a worker
    died. *)
Theorem ledger_lines_name_a_task_and_carry_a_message
        (segmentator : call -> FS -> proc_result) (now : Z) (pool : Pool)
        (args : Args) (segmentator_bin : path) (scene_dirs : list path)
        (w : World) :
  Forall (fun line => In (fst line) (map Path.name scene_dirs)
                      /\ exists msg, snd line = Some msg)
         (failed_scenes
            (fst (run_batch segmentator now pool args segmentator_bin
                            scene_dirs w))).
Proof.
  rewrite run_batch_tally, tally_closed_form. simpl.
  set (P := fun (d : path) (r : result) =>
              r_scene r = Path.name d
              /\ (r_success r = true \/ exists msg, r_detail r = Some msg)).
  assert (Hscene :
            forall d w0,
              P d (fst (process_scene segmentator now d (output_dir args)
                                      segmentator_bin (kthresh args)
                                      (seg_min_verts args) w0))).
  { intros d w0. split; [apply scene_result_scene|].
    destruct (scene_outcome_detail segmentator now d (output_dir args)
                segmentator_bin (kthresh args) (seg_min_verts args) w0)
      as [[Hok _]|[_ (msg & Hmsg & _)]]; eauto. }
  assert (Hfault : forall d msg, P d (false, Path.name d, Some msg))
    by (intros d msg; split; [reflexivity|right; now exists msg]).
  assert (Hall :
            exists order,
              (forall d, In d order -> In d scene_dirs)
              /\ Forall2 P order
                         (outcomes_batch segmentator now pool args
                                         segmentator_bin scene_dirs w)).
  { unfold outcomes_batch. destruct (1 <? num_workers args)%Z.
    - exists (completion pool scene_dirs). split.
      + intros d Hd. eapply Permutation_in; [apply completion_perm|exact Hd].
      + now apply outcomes_completed_all.
    - exists scene_dirs. split; [auto|]. now apply outcomes_sequential_all. }
  destruct Hall as (order & Hincl & Hall).
  apply Forall_forall. intros line Hline.
  apply in_map_iff in Hline as (r & <- & Hr).
  apply filter_In in Hr as [Hr Hfailed].
  assert (HQ : Forall (fun r => In (r_scene r) (map Path.name scene_dirs)
                                /\ (r_success r = true
                                    \/ exists msg, r_detail r = Some msg))
                      (outcomes_batch segmentator now pool args
                                      segmentator_bin scene_dirs w)).
  { eapply forall2_right; [exact Hall|].
    intros d r0 Hd [Hname Hdetail]. split; [|exact Hdetail].
    rewrite Hname. apply in_map. now apply Hincl. }
  rewrite Forall_forall in HQ. destruct (HQ r Hr) as [Hname Hdetail].
  split; [exact Hname|].
  destruct Hdetail as [Hok|Hmsg]; [|exact Hmsg].
  unfold failed in Hfailed. rewrite Hok in Hfailed. discriminate.
Qed.

(** X16. A task that fails with the binary's error, for want of a
    candidate, or on the missing field has written nothing: the file system
    is exactly as the binary left it.  Only a failure reported as
    "Unexpected error" can come after the driver began to write. *)
Theorem named_failures_write_nothing
        (segmentator : call -> FS -> proc_result) (now : Z)
        (scene_dir output_dir segmentator_bin : path)
        (kthresh : PyFloat.t) (seg_min_verts : Z) (w : World)
        (code : Z) (stderr : string) (fs1 : FS) :
  let scene_name := Path.name scene_dir in
  let ply_file := scene_dir // (scene_name +++ "_vh_clean_2.ply") in
  let run := process_scene segmentator now scene_dir output_dir
                           segmentator_bin kthresh seg_min_verts w in
  Fs.exists_ (fs w) ply_file = true ->
  segmentator (call_of scene_dir segmentator_bin kthresh seg_min_verts) (fs w)
  = Exited code stderr fs1 ->
  r_success (fst run) = false ->
  (forall err, r_detail (fst run) <> Some ("Unexpected error: " +++ err)) ->
  fs (snd run) = fs1.
Proof.
  intros scene_name ply_file run Hply Hrun Hfail Hnamed. unfold run in *.
  destruct (Z.eq_dec code 0) as [->|Hcode].
  - rewrite (scene_zero_exit _ _ _ _ _ _ _ _ _ _ Hply Hrun) in *.
    pose proof (resolve_output_failure_cases
                  now scene_dir output_dir kthresh fs1) as Hcases.
    destruct (resolve_output now scene_dir output_dir kthresh fs1)
      as [[e|[[[|] nm] detail]] fs'].
    + destruct Hcases as [msg ->]. exfalso. now apply (Hnamed msg).
    + discriminate.
    + now subst fs'.
  - now rewrite (scene_nonzero_exit _ _ _ _ _ _ _ _ _ _ _ Hply Hrun Hcode).
Qed.

Lemma named_failures_write_nothing_witness :
  let fs0 :=
    Examples.fs_with_candidate "scene0000_00_vh_clean_2.0.010000.segs.json"
                               (Document (JObj [("segments", JArr [])]))
  in
  let run :=
    process_scene Examples.segmentator_silent Examples.now Examples.scene0
                  ["deep"; "out"] Examples.bin PyFloat.f0_01 20
                  (mkWorld fs0 []) in
  r_detail (fst run) = Some "Invalid segs.json format: missing segIndices"
  /\ fs (snd run) = fs0.
Proof.
  intros fs0 run. split; [reflexivity|].
  apply (named_failures_write_nothing
           Examples.segmentator_silent Examples.now Examples.scene0
           ["deep"; "out"] Examples.bin PyFloat.f0_01 20 (mkWorld fs0 []) 0 ""
           fs0).
  - reflexivity.
  - reflexivity.
  - reflexivity.
  - intros err H. vm_compute in H. discriminate H.
Defined.

(** X17. No two tasks of a run deliver to the same path: distinct scene
    directories dispatched by [main] have distinct delivered paths. *)
Theorem dispatched_tasks_deliver_to_distinct_paths
        (script_dir : path) (now : Z) (args : Args) (w w1 : World)
        (scene_dirs : list path) (d1 d2 : path) :
  prepare script_dir now args w = (inr scene_dirs, w1) ->
  In d1 scene_dirs -> In d2 scene_dirs -> d1 <> d2 ->
  output_dir args // output_filename (Path.name d1)
  <> output_dir args // output_filename (Path.name d2).
Proof.
  intros Hprep H1 H2 Hneq Heq.
  assert (Hentry : forall d, In d scene_dirs ->
                             Path.parent d = input_dir args /\ d <> []).
  { revert Hprep. unfold prepare.
    destruct (negb (Fs.exists_ (fs w) (input_dir args))); [discriminate|].
    destruct (negb (Fs.exists_ (fs w) (resolve_binary script_dir args)));
      [discriminate|].
    destruct (negb (Fs.is_file (fs w) (resolve_binary script_dir args)));
      [discriminate|].
    destruct (Fs.mkdir_p now (fs w) (output_dir args)) as [e|fs1];
      [discriminate|].
    destruct (discover fs1 (input_dir args)) as [e|found] eqn:Hdisc;
      [discriminate|].
    assert (Hfound : forall d, In d found ->
                               Path.parent d = input_dir args /\ d <> []).
    { unfold discover, Fs.iterdir in Hdisc.
      destruct (Fs.lookup fs1 (input_dir args)) as [[mt|mt data]|];
        try discriminate.
      injection Hdisc as <-. intros d Hd.
      apply filter_In in Hd as [Hchild _]. split.
      - now apply children_parent with fs1.
      - now apply children_not_nil with fs1 (input_dir args). }
    destruct found as [|d0 ds]; [discriminate|].
    set (found := d0 :: ds) in *. clearbody found.
    destruct (skip_existing args); intros H; injection H as <- <-.
    - intros d Hd. apply Hfound. unfold remaining_scenes in Hd.
      now apply filter_In in Hd as [Hd _].
    - exact Hfound. }
  destruct (Hentry d1 H1) as [Hp1 Hn1].
  destruct (Hentry d2 H2) as [Hp2 Hn2].
  unfold Path.join in Heq. apply app_inj_tail in Heq as [_ Hname].
  apply output_filename_inj in Hname.
  apply Hneq. rewrite (path_parent_name d1 Hn1), (path_parent_name d2 Hn2).
  now rewrite Hp1, Hp2, Hname.
Qed.

Lemma dispatched_tasks_deliver_to_distinct_paths_witness :
  Examples.out // output_filename (Path.name Examples.scene0)
  <> Examples.out // output_filename (Path.name Examples.scene1).
Proof.
  apply (dispatched_tasks_deliver_to_distinct_paths
           Examples.script_dir Examples.now (Examples.args 1 false)
           (mkWorld Examples.fs_two_scenes [])
           (snd (prepare Examples.script_dir Examples.now
                         (Examples.args 1 false)
                         (mkWorld Examples.fs_two_scenes [])))
           [Examples.scene0; Examples.scene1]).
  - vm_compute. reflexivity.
  - now left.
  - right. now left.
  - discriminate.
Defined.

(* ================================================================== *)
(** * Where the code departs from the specification *)

(** C1, at a scene directory that may not be searched.  [exists()] raises
    for the first of two tasks.  With one worker the sequential loop, which
    has no handler, ends there: no report, and the second task, whose mesh
    is in place, never runs.  With eight workers the handler of the pool
    loop (lines 252-255) counts the exception as that task's failure, and
    the two counters add up to the two tasks. *)
Theorem sequential_loop_aborts_where_pool_counts :
  let w := mkWorld Examples.fs_two_meshes [] in
  let tasks := [Examples.scene0; Examples.scene1] in
  let run workers :=
    run_batch_or_abort Examples.segmentator_ok Examples.now
                       Hazards.scene0_denied Examples.pool_fifo
                       (Examples.args workers false) Examples.bin tasks w in
  Fs.exists_ (fs w) Examples.ply1 = true
  /\ run 1%Z = (inl Hazards.denied_message, w)
  /\ fst (run 8%Z)
     = inr (mkReport 1 1 [("scene0000_00", Some Hazards.denied_message)])
  /\ List.length (calls (snd (run 8%Z))) = 1.
Proof. vm_compute. repeat split. Qed.

(** The pool loop counts every task whatever raises; so does the sequential
    loop where nothing raises, being then the loop of [run_batch]. *)
Lemma pool_loop_counts_every_task
      (segmentator : call -> FS -> proc_result) (now : Z)
      (stat_error : stat_errors) (pool : Pool) (args : Args)
      (segmentator_bin : path) (scene_dirs : list path) (w : World) :
  (1 < num_workers args)%Z ->
  exists rep,
    fst (run_batch_or_abort segmentator now stat_error pool args
                            segmentator_bin scene_dirs w) = inr rep
    /\ success_count rep + fail_count rep = List.length scene_dirs.
Proof.
  intros Hworkers. unfold run_batch_or_abort.
  apply Z.ltb_lt in Hworkers. rewrite Hworkers.
  pose proof (run_completed_catching_counts
                segmentator now stat_error pool (output_dir args)
                segmentator_bin (kthresh args) (seg_min_verts args)
                (completion pool scene_dirs) empty_report w) as Hcount.
  cbv zeta in Hcount.
  destruct (run_completed_catching segmentator now stat_error pool
              (output_dir args) segmentator_bin (kthresh args)
              (seg_min_verts args) (completion pool scene_dirs)
              empty_report w) as [rep w'].
  exists rep. split; [reflexivity|]. simpl in Hcount. rewrite Hcount.
  apply Permutation_length, completion_perm.
Qed.

Lemma quiet_batch_is_run_batch
      (segmentator : call -> FS -> proc_result) (now : Z)
      (stat_error : stat_errors) (pool : Pool) (args : Args)
      (segmentator_bin : path) (scene_dirs : list path) (w : World) :
  (forall p, stat_error p = None) ->
  run_batch_or_abort segmentator now stat_error pool args segmentator_bin
                     scene_dirs w
  = (inr (fst (run_batch segmentator now pool args segmentator_bin
                         scene_dirs w)),
     snd (run_batch segmentator now pool args segmentator_bin scene_dirs w)).
Proof.
  intros Hquiet. unfold run_batch_or_abort, run_batch.
  destruct (1 <? num_workers args)%Z.
  - rewrite run_completed_catching_quiet by exact Hquiet.
    now destruct (run_completed _ _ _ _ _ _ _ _ _ _).
  - now apply run_sequential_or_abort_quiet.
Qed.

(** C8, at the same scene directory, for one fixed list of tasks and one
    fixed behaviour of the binary and of the file system.  With one worker
    the run ends on the exception after the first task and has no report:
    the aggregation received one outcome.  With eight workers it reaches the
    summary with two outcomes, the exception among them.  The two are not
    the same multiset. *)
Theorem one_worker_aborts_where_eight_report :
  let w := mkWorld Examples.fs_two_meshes [] in
  let tasks := [Examples.scene1; Examples.scene0] in
  let args := Examples.args 4 false in
  let run workers :=
    run_batch_or_abort Examples.segmentator_ok Examples.now
                       Hazards.scene0_denied Examples.pool_fifo
                       (with_workers workers args) Examples.bin tasks w in
  let received workers :=
    outcomes_received Examples.segmentator_ok Examples.now
                      Hazards.scene0_denied Examples.pool_fifo
                      (with_workers workers args) Examples.bin tasks w in
  fst (run 1%Z) = inl Hazards.denied_message
  /\ received 1%Z = [(true, "scene0001_00", None)]
  /\ fst (run 8%Z)
     = inr (mkReport 1 1 [("scene0000_00", Some Hazards.denied_message)])
  /\ received 8%Z
     = [(true, "scene0001_00", None);
        (false, "scene0000_00", Some Hazards.denied_message)]
  /\ ~ Permutation (received 1%Z) (received 8%Z).
Proof.
  repeat split; try (vm_compute; reflexivity).
  intros H. apply Permutation_length in H. vm_compute in H. discriminate H.
Qed.

(** C3, at a delivered path that is an existing directory.  [shutil.copy2]
    then copies into the directory, under the candidate's name: the task
    returns success, the path
    [<output_dir>/<scene>_vh_clean_2.0.010000.segs.json] is still the
    directory, and the artifact is one level below it. *)
Theorem directory_at_delivered_path_swallows_artifact :
  let w := mkWorld Hazards.fs_delivered_is_dir [] in
  let (r, w') :=
    process_scene Examples.segmentator_silent Examples.now Examples.scene0
                  Examples.out Examples.bin PyFloat.f0_01 20 w in
  Hazards.delivered
  = Examples.out // ("scene0000_00" +++ "_vh_clean_2.0.010000.segs.json")
  /\ r = (true, "scene0000_00", None)
  /\ Fs.lookup (fs w') Hazards.delivered = Some (Dir 3)
  /\ Fs.lookup (fs w')
               (Hazards.delivered
                  // "scene0000_00_vh_clean_2.0.010000.segs.json")
     = Some (File 50 (Document Examples.seg_doc)).
Proof. vm_compute. repeat split. Qed.
